(** * BERT pre-training data pipeline and training loop

    A shallow embedding of [src/pretrain/bookcorpus.py] (the
    [BookCorpusForBERT] dataset) and of the checkpointing / reporting part of
    [src/train.py], together with the properties the specification states
    about them.

    Python integers are [Z]; Python lists and one-dimensional integer
    tensors are [list Z]; raised exceptions are the [Raise] branch of
    [result]; the file system (restricted to checkpoint files) is a
    [gmap string file]. *)

From Stdlib Require Import ZArith QArith Lia.
From stdpp Require Import base list strings gmap pretty.

Local Open Scope Z_scope.

(** ** Python primitives *)

Module Py.

(** The exceptions that the modelled code paths can raise. *)
Inductive exn :=
| IndexError
| TypeError
| ValueError
| AttributeError
| ZeroDivisionError
| FileNotFoundError
| OSError
| UnpicklingError.

Inductive result (A : Type) :=
| Ok (a : A)
| Raise (e : exn).
Arguments Ok {A} a.
Arguments Raise {A} e.

#[export] Instance result_ret : MRet result := fun _ a => Ok a.
#[export] Instance result_bind : MBind result := fun _ _ f m =>
  match m with
  | Ok a => f a
  | Raise e => Raise e
  end.

(** [len(l)] as a Python integer. *)
Definition len {A} (l : list A) : Z := Z.of_nat (length l).

(** [l[:stop]].  A negative [stop] counts from the end of the list, and
    the bound is clamped to [0 .. len(l)]. *)
Definition slice_to {A} (l : list A) (stop : Z) : list A :=
  if stop <? 0 then take (Z.to_nat (len l + stop)) l
  else take (Z.to_nat stop) l.

(** [[x] * n]: the empty list when [n <= 0]. *)
Definition repeat_item {A} (x : A) (n : Z) : list A :=
  replicate (Z.to_nat n) x.

(** [l[i]] with Python's negative indices and [IndexError]. *)
Definition getitem {A} (l : list A) (i : Z) : result A :=
  let j := if i <? 0 then i + len l else i in
  if (j <? 0) || (len l <=? j) then Raise IndexError
  else match l !! Z.to_nat j with
       | Some x => Ok x
       | None => Raise IndexError
       end.

(** [list(range(start, stop))]. *)
Definition range (start stop : Z) : list Z :=
  map (fun i => start + Z.of_nat i) (seq 0 (Z.to_nat (stop - start))).

(** [a // b] on integers: floor division, [ZeroDivisionError] on [b = 0]. *)
Definition floordiv (a b : Z) : result Z :=
  if b =? 0 then Raise ZeroDivisionError else Ok (a / b).

(** [a % b] on integers: the sign follows the divisor, as [Z.modulo]. *)
Definition mod_ (a b : Z) : result Z :=
  if b =? 0 then Raise ZeroDivisionError else Ok (a mod b).

(** The values that reach [random.choice] and [len] in the modelled code:
    an integer or a sequence of integers. *)
Inductive obj :=
| Int (n : Z)
| Seq (xs : list Z).

(** The builtin [len(o)]: an [int] has no length. *)
Definition builtin_len (o : obj) : result Z :=
  match o with
  | Int _ => Raise TypeError
  | Seq xs => Ok (len xs)
  end.

(** The two draws of the shared generator that one call of the sampler can
    consume: the value of [random.random()], in [0, 1), and the function
    that [random.choice] uses to pick an index below a bound. *)
Record rng := {
  random_random : Q;
  randbelow : Z -> Z
}.

(** [random.choice(seq)]: [seq[randbelow(len(seq))]], with [IndexError] on
    an empty sequence. *)
Definition random_choice (g : rng) (o : obj) : result Z :=
  n ← builtin_len o;
  if n =? 0 then Raise IndexError
  else match o with
       | Seq xs => getitem xs (randbelow g n)
       | Int _ => Raise TypeError
       end.

(** Text is a sequence of Unicode code points.  [isspace] is the
    whitespace test that [str.strip] applies: the controls 0x09-0x0D and
    0x1C-0x1F, the space, and the Unicode separators. *)
Definition isspace (c : N) : bool :=
  ((9 <=? c) && (c <=? 13) || (28 <=? c) && (c <=? 32)
   || (c =? 133) || (c =? 160) || (c =? 5760)
   || (8192 <=? c) && (c <=? 8202)
   || (c =? 8232) || (c =? 8233) || (c =? 8239) || (c =? 8287)
   || (c =? 12288))%N.

(** [s.lstrip()]. *)
Fixpoint lstrip (s : list N) : list N :=
  match s with
  | [] => []
  | c :: s' => if isspace c then lstrip s' else s
  end.

(** [s.rstrip()]. *)
Definition rstrip (s : list N) : list N := reverse (lstrip (reverse s)).

(** [s.strip()]. *)
Definition strip (s : list N) : list N := rstrip (lstrip s).

(** A text of whitespace only, the empty text included. *)
Definition blank (s : list N) : Prop := Forall (fun c => isspace c = true) s.

#[export] Instance blank_dec (s : list N) : Decision (blank s).
Proof. unfold blank. apply _. Defined.

(** One-dimensional integer tensors. *)
Module Tensor.

(** [torch.zeros_like(t)]. *)
Definition zeros_like (t : list Z) : list Z := replicate (length t) 0.

(** [t == v], elementwise. *)
Definition eq_scalar (t : list Z) (v : Z) : list bool :=
  map (fun x => x =? v) t.

(** [m.sum()] of a boolean tensor. *)
Definition sum (m : list bool) : Z :=
  foldr (fun (b : bool) acc => (if b then 1 else 0) + acc) 0 m.

Fixpoint nonzero_from (i : nat) (m : list bool) : list Z :=
  match m with
  | [] => []
  | b :: m' =>
      (if b then [Z.of_nat i] else []) ++ nonzero_from (S i) m'
  end.

(** [m.nonzero()]: the indices of the true entries, in order. *)
Definition nonzero (m : list bool) : list Z := nonzero_from 0 m.

(** A slice bound, normalised as Python does for a sequence of
    length [n]. *)
Definition clamp (n i : Z) : Z :=
  if i <? 0 then Z.max (i + n) 0 else Z.min i n.

(** [t[start:stop] = v]. *)
Definition slice_fill (t : list Z) (start stop v : Z) : list Z :=
  let lo := clamp (len t) start in
  let hi := clamp (len t) stop in
  imap (fun j x =>
          if (lo <=? Z.of_nat j) && (Z.of_nat j <? hi) then v else x) t.

End Tensor.

End Py.

Import Py.

(** ** [pretrain/bookcorpus.py] *)

Module BookCorpus.

(** The attributes of a [BookCorpusForBERT] object that the methods below
    read. *)
Record BookCorpusForBERT := {
  max_len : Z;
  cls_id : Z;
  sep_id : Z;
  pad_id : Z;
  unk_id : Z;
  ls_token_ids : list (list Z)
}.

Section Methods.

Variable self : BookCorpusForBERT.

Definition _to_bert_input (prev_token_ids next_token_ids : list Z)
  : list Z :=
  let token_ids :=
    slice_to
      ([cls_id self] ++ slice_to prev_token_ids (max_len self - 3)
         ++ [sep_id self] ++ next_token_ids)
      (max_len self - 1)
      ++ [sep_id self] in
  token_ids ++ repeat_item (pad_id self) (max_len self - len token_ids).

Definition _sample_next_sentence (g : rng) (idx : Z)
  : result (list Z * Z) :=
  '(next_idx, is_next) ←
    (if Qlt_le_dec (random_random g) (1 # 2)
     then Ok (idx + 1, 1)
     else next_idx ← random_choice g (Int (len (ls_token_ids self)));
          Ok (next_idx, 0));
  next_token_ids ← getitem (ls_token_ids self) next_idx;
  Ok (next_token_ids, is_next).

(** [token_ids] is a one-dimensional integer tensor: the method reads its
    [dtype] and [device] and compares it elementwise. *)
Definition _token_ids_to_segment_ids (token_ids : list Z)
  : result (list Z) :=
  let seg_ids := Tensor.zeros_like token_ids in
  let is_sep := Tensor.eq_scalar token_ids (sep_id self) in
  if Tensor.sum is_sep =? 2 then
    match Tensor.nonzero is_sep with
    | [a; b] => Ok (Tensor.slice_fill seg_ids (a + 1) (b + 1) 1)
    | _ => Raise ValueError
    end
  else Ok seg_ids.

Definition __len__ : Z := len (ls_token_ids self).

End Methods.

(** Lines 44-53, for a tokenizer whose [encode(parag).ids] is [encode] and
    for the documents in the order the directory listing gives them, each
    one the sequence of lines that iterating over the open file yields. *)
Definition _parse_and_tokenize (encode : list N -> list Z)
    (docs : list (list (list N))) : list (list Z) :=
  foldl
    (fun ls_token_ids doc =>
       foldl
         (fun ls_token_ids parag =>
            match strip parag with
            | [] => ls_token_ids
            | parag => ls_token_ids ++ [encode parag]
            end)
         ls_token_ids doc)
    [] docs.

(** A sequence of token ids is held by a Python list or by a tensor; only
    the tensor has the attributes [dtype] and [device]. *)
Inductive token_seq :=
| AsList (l : list Z)
| AsTensor (t : list Z).

(** The call [self._token_ids_to_segment_ids(token_ids)] on either kind of
    argument: its first line reads [token_ids.dtype]. *)
Definition call_token_ids_to_segment_ids (self : BookCorpusForBERT)
    (token_ids : token_seq) : result (list Z) :=
  match token_ids with
  | AsList _ => Raise AttributeError
  | AsTensor t => _token_ids_to_segment_ids self t
  end.

(** Lines 83-88.  [_to_bert_input] returns a list, and that list is what
    line 87 passes on. *)
Definition __getitem__ (self : BookCorpusForBERT) (g : rng) (idx : Z)
  : result (list Z * list Z * Z) :=
  prev_token_ids ← getitem (ls_token_ids self) idx;
  '(next_token_ids, is_next) ← _sample_next_sentence self g idx;
  let token_ids := _to_bert_input self prev_token_ids next_token_ids in
  seg_ids ← call_token_ids_to_segment_ids self (AsList token_ids);
  Ok (token_ids, seg_ids, is_next).

(** The assembly algorithm in the words of the specification: [CLS], the
    first sentence cut to at most [max_len - 3] tokens, [SEP], the second
    sentence; the whole cut to [max_len - 1] tokens; a trailing [SEP];
    padding on the right up to [max_len].  Counts are natural numbers. *)
Definition assemble_spec (cls sep pad : Z) (maxLen : nat)
    (prevTokenIds nextTokenIds : list Z) : list Z :=
  let body :=
    take (maxLen - 1)%nat
      ([cls] ++ take (maxLen - 3)%nat prevTokenIds ++ [sep] ++ nextTokenIds)
      ++ [sep] in
  body ++ replicate (maxLen - length body)%nat pad.

(** The dataset of the specification's example scenario. *)
Definition example_ds : BookCorpusForBERT :=
  {| max_len := 8; cls_id := 1; sep_id := 2; pad_id := 0; unk_id := 3;
     ls_token_ids := [[5; 6]; [7; 6]] |}.

End BookCorpus.

Import BookCorpus.

(** ** [train.py] *)

Module Train.

(** A path value is a Python [str] or a [pathlib.Path]; only the latter
    has the method [unlink]. *)
Inductive pathobj :=
| Str (s : string)
| Path (s : string).

(** [str(p)], and the path that [Path(p)] denotes. *)
Definition path_str (p : pathobj) : string :=
  match p with
  | Str s => s
  | Path s => s
  end.

(** [isinstance(p, Path)]. *)
Definition is_Path (p : pathobj) : Prop :=
  match p with
  | Str _ => False
  | Path _ => True
  end.

(** What one call of [torch.save] does to the target file. *)
Inductive write_outcome :=
| WriteOk
| WriteFailsBefore
| WriteFailsMidway.

(** The lines the loop prints.  The elapsed time of a progress line is
    left out; the means are kept exact rather than rounded to three
    decimals. *)
Inductive line :=
| Progress (step n_steps : Z) (nsp_loss mlm_loss : Q)
| SavedCheckpoint.

(** The module [config], which is not part of the sources: the constants
    that the modelled lines read.  [CKPT_DIR] is a [pathlib.Path] (the
    loop applies [/] to it), [CKPT_PATH] is [None] or a path value. *)
Record Config := {
  MAX_LEN : Z;
  N_CKPT_SAMPLES : Z;
  CKPT_DIR : string;
  CKPT_PATH : option pathobj
}.

Section Loop.

(** The state dictionaries of the model, the optimizer and the gradient
    scaler are opaque. *)
Variables ModelState OptimState ScalerState : Type.

Record Checkpoint := {
  ckpt_step : Z;
  ckpt_optimizer : OptimState;
  ckpt_scaler : ScalerState;
  ckpt_model : ModelState
}.

(** A checkpoint file holds a complete record, or the debris of a write
    that failed midway. *)
Inductive file :=
| Valid (c : Checkpoint)
| Truncated.

(** The part of the outside world that the loop touches: the checkpoint
    files, by path, and the standard output. *)
Record world := {
  disk : gmap string file;
  stdout : list line
}.

(** Computations that read and write the world and may raise. *)
Definition io (A : Type) : Type := world -> world * result A.

Definition io_ret {A} (a : A) : io A := fun w => (w, Ok a).

Definition io_bind {A B} (m : io A) (f : A -> io B) : io B :=
  fun w =>
    match m w with
    | (w', Ok a) => f a w'
    | (w', Raise e) => (w', Raise e)
    end.

Definition lift {A} (r : result A) : io A := fun w => (w, r).

#[local] Notation "'let*' x ':=' m 'in' k" :=
  (io_bind m (fun x => k))
  (at level 10, x pattern, m at level 100, k at level 200,
   only parsing).

Definition print (l : line) : io unit :=
  fun w => ({| disk := disk w; stdout := stdout w ++ [l] |}, Ok tt).

(** [Path(p).exists()]. *)
Definition exists_ (p : pathobj) : io bool :=
  fun w => (w, Ok (bool_decide (is_Some (disk w !! path_str p)))).

(** [p.unlink()]. *)
Definition unlink (p : pathobj) : io unit :=
  fun w =>
    match p with
    | Str _ => (w, Raise AttributeError)
    | Path s =>
        match disk w !! s with
        | Some _ =>
            ({| disk := delete s (disk w); stdout := stdout w |}, Ok tt)
        | None => (w, Raise FileNotFoundError)
        end
    end.

(** [torch.save(ckpt, str(ckpt_path))], with the outcome decided by the
    environment. *)
Definition torch_save (o : write_outcome) (ckpt : Checkpoint)
    (f : string) : io unit :=
  fun w =>
    match o with
    | WriteOk =>
        ({| disk := <[f := Valid ckpt]> (disk w); stdout := stdout w |},
         Ok tt)
    | WriteFailsBefore => (w, Raise OSError)
    | WriteFailsMidway =>
        ({| disk := <[f := Truncated]> (disk w); stdout := stdout w |},
         Raise OSError)
    end.

(** [torch.load(path)]. *)
Definition torch_load (p : pathobj) : io Checkpoint :=
  fun w =>
    match disk w !! path_str p with
    | Some (Valid c) => (w, Ok c)
    | Some Truncated => (w, Raise UnpicklingError)
    | None => (w, Raise FileNotFoundError)
    end.

(** [save_checkpoint]; creating the parent directory does not touch the
    checkpoint files. *)
Definition save_checkpoint (o : write_outcome) (step : Z)
    (model : ModelState) (optim : OptimState) (scaler : ScalerState)
    (ckpt_path : pathobj) : io unit :=
  let ckpt :=
    {| ckpt_step := step; ckpt_optimizer := optim;
       ckpt_scaler := scaler; ckpt_model := model |} in
  let* _ := torch_save o ckpt (path_str ckpt_path) in
  print SavedCheckpoint.

(** The external collaborators, per step: lines 124-154 draw a batch and
    run the model, the loss and the optimizer, leaving new states and the
    two loss values; [torch.save] succeeds or fails. *)
Record Collaborators := {
  train_step :
    Z -> ModelState * OptimState * ScalerState ->
    ModelState * OptimState * ScalerState * (Q * Q);
  save_outcome : Z -> write_outcome
}.

(** The local variables of [__main__] that the loop reads and writes.
    [running_loss] is unbound until line 165 assigns it. *)
Record Locals := {
  model : ModelState;
  optim : OptimState;
  scaler : ScalerState;
  running_nsp_loss : Q;
  running_mlm_loss : Q;
  running_loss : option Z;
  step_cnt : Z;
  prev_ckpt_path : pathobj
}.

(** The record that [save_checkpoint] builds at [step] from the states
    held in the locals. *)
Definition ckpt_of (step : Z) (L : Locals) : Checkpoint :=
  {| ckpt_step := step; ckpt_optimizer := optim L;
     ckpt_scaler := scaler L; ckpt_model := model L |}.

Variable config : Config.
Variable env : Collaborators.

(** Line 60. *)
Definition N_STEPS (batch_size : Z) : result Z :=
  floordiv (256 * 512 * 1000000) (batch_size * MAX_LEN config).

(** [CKPT_DIR / f"bookcorpus_step_{step}.pth"]. *)
Definition ckpt_path_of (step : Z) : pathobj :=
  Path (CKPT_DIR config +:+ "/bookcorpus_step_" +:+ pretty step
          +:+ ".pth").

(** Lines 103-116. *)
Definition resume (model : ModelState) (optim : OptimState)
    (scaler : ScalerState)
  : io (ModelState * OptimState * ScalerState * Z * pathobj) :=
  match CKPT_PATH config with
  | Some p =>
      let* ckpt := torch_load p in
      io_ret (ckpt_model ckpt, ckpt_optimizer ckpt, ckpt_scaler ckpt,
              ckpt_step ckpt, p)
  | None => io_ret (model, optim, scaler, 0, Str ".pth")
  end.

(** [x / n] on a float and an integer. *)
Definition truediv (x : Q) (n : Z) : result Q :=
  if n =? 0 then Raise ZeroDivisionError else Ok (x / inject_Z n)%Q.

(** Lines 168-174: write the new checkpoint, remove the previous one,
    remember the new path. *)
Definition checkpoint_rotation (step : Z) (L : Locals) : io Locals :=
  let cur_ckpt_path := ckpt_path_of step in
  let* _ := save_checkpoint (save_outcome env step) step
              (model L) (optim L) (scaler L) cur_ckpt_path in
  let* found := exists_ (prev_ckpt_path L) in
  let* _ := (if found : bool then unlink (prev_ckpt_path L)
             else io_ret tt) in
  io_ret
    {| model := model L; optim := optim L; scaler := scaler L;
       running_nsp_loss := running_nsp_loss L;
       running_mlm_loss := running_mlm_loss L;
       running_loss := running_loss L;
       step_cnt := step_cnt L;
       prev_ckpt_path := cur_ckpt_path |}.

(** Lines 161-166: the progress line and the reset. *)
Definition report (n_steps step : Z) (L : Locals) : io Locals :=
  let* nsp := lift (truediv (running_nsp_loss L) (step_cnt L)) in
  let* mlm := lift (truediv (running_mlm_loss L) (step_cnt L)) in
  let* _ := print (Progress step n_steps nsp mlm) in
  io_ret
    {| model := model L; optim := optim L; scaler := scaler L;
       running_nsp_loss := running_nsp_loss L;
       running_mlm_loss := running_mlm_loss L;
       running_loss := Some 0;
       step_cnt := 0;
       prev_ckpt_path := prev_ckpt_path L |}.

(** The condition of line 160; [or] evaluates its left operand first. *)
Definition is_report_step (batch_size n_steps step : Z) : result bool :=
  interval ← floordiv (N_CKPT_SAMPLES config) batch_size;
  r ← mod_ step interval;
  Ok ((r =? 0) || (step =? n_steps)).

(** Lines 124-174: one iteration of the loop. *)
Definition loop_body (batch_size n_steps step : Z) (L : Locals)
  : io Locals :=
  let '(model', optim', scaler', (nsp_loss, mlm_loss)) :=
    train_step env step (model L, optim L, scaler L) in
  let L1 :=
    {| model := model'; optim := optim'; scaler := scaler';
       running_nsp_loss := (running_nsp_loss L + nsp_loss)%Q;
       running_mlm_loss := (running_mlm_loss L + mlm_loss)%Q;
       running_loss := running_loss L;
       step_cnt := step_cnt L + 1;
       prev_ckpt_path := prev_ckpt_path L |} in
  let* due := lift (is_report_step batch_size n_steps step) in
  if due : bool then
    let* L2 := report n_steps step L1 in
    checkpoint_rotation step L2
  else io_ret L1.

(** The state of the checkpoint files that the rotation relies on once
    the iteration of [step] is over: no file besides the one
    [prev_ckpt_path] names, which is a [pathlib.Path] if the file is
    there, and which no later step will write to. *)
Definition rotation_inv (step : Z) (L : Locals) (w : world) : Prop :=
  dom (disk w) ⊆ {[path_str (prev_ckpt_path L)]}
  /\ (is_Path (prev_ckpt_path L)
      \/ disk w !! path_str (prev_ckpt_path L) = None)
  /\ forall s, step < s ->
       path_str (prev_ckpt_path L) <> path_str (ckpt_path_of s).

(** [for step in steps: body]. *)
Fixpoint for_each (steps : list Z) (body : Z -> Locals -> io Locals)
    (L : Locals) : io Locals :=
  match steps with
  | [] => io_ret L
  | step :: rest =>
      let* L' := body step L in
      for_each rest body L'
  end.

(** Lines 119-121 and the resolved checkpoint state. *)
Definition init_locals (model : ModelState) (optim : OptimState)
    (scaler : ScalerState) (prev : pathobj) : Locals :=
  {| model := model; optim := optim; scaler := scaler;
     running_nsp_loss := 0; running_mlm_loss := 0;
     running_loss := None; step_cnt := 0;
     prev_ckpt_path := prev |}.

(** The steps that line 123 iterates over. *)
Definition loop_steps (init_step n_steps : Z) : list Z :=
  range (init_step + 1) (n_steps + 1).

(** [__main__], from line 60 on, for a freshly built model, optimizer
    and scaler. *)
Definition main (batch_size : Z) (model : ModelState)
    (optim : OptimState) (scaler : ScalerState) : io Locals :=
  let* n_steps := lift (N_STEPS batch_size) in
  let* (model, optim, scaler, init_step, prev) :=
    resume model optim scaler in
  for_each (loop_steps init_step n_steps)
    (loop_body batch_size n_steps)
    (init_locals model optim scaler prev).

End Loop.

(** The three state types are inferred wherever a value fixes them. *)
Arguments ckpt_step {_ _ _}.
Arguments ckpt_optimizer {_ _ _}.
Arguments ckpt_scaler {_ _ _}.
Arguments ckpt_model {_ _ _}.
Arguments Valid {_ _ _}.
Arguments Truncated {_ _ _}.
Arguments disk {_ _ _}.
Arguments stdout {_ _ _}.
Arguments print {_ _ _}.
Arguments exists_ {_ _ _}.
Arguments unlink {_ _ _}.
Arguments torch_save {_ _ _}.
Arguments torch_load {_ _ _}.
Arguments save_checkpoint {_ _ _}.
Arguments train_step {_ _ _}.
Arguments save_outcome {_ _ _}.
Arguments model {_ _ _}.
Arguments optim {_ _ _}.
Arguments scaler {_ _ _}.
Arguments running_nsp_loss {_ _ _}.
Arguments running_mlm_loss {_ _ _}.
Arguments running_loss {_ _ _}.
Arguments step_cnt {_ _ _}.
Arguments prev_ckpt_path {_ _ _}.
Arguments resume {_ _ _}.
Arguments checkpoint_rotation {_ _ _}.
Arguments report {_ _ _}.
Arguments loop_body {_ _ _}.
Arguments for_each {_ _ _}.
Arguments init_locals {_ _ _}.
Arguments rotation_inv {_ _ _}.
Arguments ckpt_of {_ _ _}.
Arguments main {_ _ _}.
Arguments Build_Checkpoint {_ _ _}.
Arguments Build_world {_ _ _}.
Arguments Build_Collaborators {_ _ _}.
Arguments Build_Locals {_ _ _}.
Arguments io_ret {_ _ _ _}.
Arguments io_bind {_ _ _ _ _}.
Arguments lift {_ _ _ _}.

(** Some file on disk holds a complete checkpoint, so that a run can be
    resumed. *)
Definition has_valid_checkpoint {ModelState OptimState ScalerState : Type}
    (w : world ModelState OptimState ScalerState) : Prop :=
  exists f c, disk w !! f = Some (Valid c).

End Train.

Import Train.

(** ** Concrete scenarios *)

(** A generator whose first draw selects the true successor. *)
Definition rng_is_next : rng :=
  {| random_random := 1 # 4; randbelow := fun _ => 0 |}.

(** A generator whose first draw selects a random paragraph. *)
Definition rng_not_next : rng :=
  {| random_random := 3 # 4; randbelow := fun _ => 0 |}.

(** A run with the published recipe (batch size 256, sequences of 512
    tokens), a report every step, no checkpoint to resume from, and
    collaborators whose two losses are 1 at every step and whose checkpoint
    writes succeed.  The three state dictionaries are trivial. *)
Definition recipe_config : Config :=
  {| MAX_LEN := 512; N_CKPT_SAMPLES := 256; CKPT_DIR := "ckpt";
     CKPT_PATH := None |}.

Definition unit_loss_env : Collaborators unit unit unit :=
  {| train_step := fun _ st => (st, (1, 1)%Q);
     save_outcome := fun _ => WriteOk |}.

Definition empty_world : world unit unit unit :=
  {| disk := ∅; stdout := [] |}.

(** Collaborators whose checkpoint writes fail midway. *)
Definition midway_failure_env : Collaborators unit unit unit :=
  {| train_step := fun _ st => (st, (1, 1)%Q);
     save_outcome := fun _ => WriteFailsMidway |}.

(** The locals and the world as the loop leaves them after the checkpoint of
    step 1. *)
Definition locals_after_step_1 : Locals unit unit unit :=
  {| model := tt; optim := tt; scaler := tt;
     running_nsp_loss := 1; running_mlm_loss := 1;
     running_loss := Some 0; step_cnt := 0;
     prev_ckpt_path := Path "ckpt/bookcorpus_step_1.pth" |}.

Definition world_after_step_1 : world unit unit unit :=
  {| disk := {["ckpt/bookcorpus_step_1.pth" := Valid (ckpt_of 1 locals_after_step_1)]};
     stdout := [Progress 1 1000000 1 1; SavedCheckpoint] |}.

(** A short run: with a batch of 128,000,000 sequences of 512 tokens the
    token budget is spent in two steps, and a report is due at each. *)
Definition short_run_config : Config :=
  {| MAX_LEN := 512; N_CKPT_SAMPLES := 128000000; CKPT_DIR := "ckpt";
     CKPT_PATH := None |}.

(** The same configuration, resuming from a checkpoint file. *)
Definition resume_config : Config :=
  {| MAX_LEN := 512; N_CKPT_SAMPLES := 256; CKPT_DIR := "ckpt";
     CKPT_PATH := Some (Path "ckpt/bookcorpus_step_5.pth") |}.

(** * Properties of the dataset *)

Section TensorFacts.

Variable sep : Z.

Lemma sum_eq_scalar_filter (t : list Z) :
  Tensor.sum (Tensor.eq_scalar t sep)
  = Z.of_nat (length (filter (fun x => x = sep) t)).
Proof.
  induction t as [|x t IH]; [reflexivity|].
  change (Tensor.sum (Tensor.eq_scalar (x :: t) sep))
    with ((if x =? sep then 1 else 0) + Tensor.sum (Tensor.eq_scalar t sep)).
  rewrite filter_cons, IH.
  destruct (Z.eqb_spec x sep) as [->|Hne].
  - rewrite decide_True by reflexivity. cbn [length]. lia.
  - rewrite decide_False by assumption. lia.
Qed.

Lemma length_nonzero_from (m : list bool) (k : nat) :
  Z.of_nat (length (Tensor.nonzero_from k m)) = Tensor.sum m.
Proof.
  revert k. induction m as [|b m IH]; intros k; [reflexivity|].
  cbn [Tensor.nonzero_from Tensor.sum foldr].
  rewrite length_app. specialize (IH (S k)).
  unfold Tensor.sum in IH. destruct b; cbn [length]; lia.
Qed.

Lemma nonzero_from_none (t : list Z) (k : nat) :
  (forall i, t !! i <> Some sep) ->
  Tensor.nonzero_from k (Tensor.eq_scalar t sep) = [].
Proof.
  revert k. induction t as [|x t IH]; intros k H; [reflexivity|].
  cbn [Tensor.eq_scalar Tensor.nonzero_from map].
  destruct (Z.eqb_spec x sep) as [->|Hne].
  - exfalso. apply (H 0%nat). reflexivity.
  - cbn [app]. apply IH. intros i. apply (H (S i)).
Qed.

Lemma nonzero_from_one (t : list Z) (k b : nat) :
  (forall i, t !! i = Some sep <-> i = b) ->
  Tensor.nonzero_from k (Tensor.eq_scalar t sep) = [Z.of_nat (k + b)].
Proof.
  revert k b. induction t as [|x t IH]; intros k b H.
  - exfalso. assert (E : @nil Z !! b = Some sep) by (apply H; reflexivity).
    discriminate E.
  - cbn [Tensor.eq_scalar Tensor.nonzero_from map].
    destruct (Z.eqb_spec x sep) as [->|Hne].
    + assert (b = 0%nat) as -> by (symmetry; apply H; reflexivity).
      change (map (fun x => x =? sep) t) with (Tensor.eq_scalar t sep).
      rewrite nonzero_from_none.
      * cbn [app]. do 2 f_equal. lia.
      * intros i Hi. assert (S i = 0%nat) by (apply H; exact Hi). lia.
    + destruct b as [|b].
      * exfalso. apply Hne.
        assert (E : (x :: t) !! 0%nat = Some sep) by (apply H; reflexivity).
        cbn in E. congruence.
      * cbn [app].
        change (map (fun x => x =? sep) t) with (Tensor.eq_scalar t sep).
        rewrite (IH (S k) b).
        -- do 2 f_equal. lia.
        -- intros i. specialize (H (S i)). cbn in H. rewrite H. lia.
Qed.

Lemma nonzero_from_two (t : list Z) (k a b : nat) :
  (a < b)%nat ->
  (forall i, t !! i = Some sep <-> i = a \/ i = b) ->
  Tensor.nonzero_from k (Tensor.eq_scalar t sep)
  = [Z.of_nat (k + a); Z.of_nat (k + b)].
Proof.
  revert k a b. induction t as [|x t IH]; intros k a b Hab H.
  - exfalso. assert (E : @nil Z !! a = Some sep) by (apply H; auto).
    discriminate E.
  - cbn [Tensor.eq_scalar Tensor.nonzero_from map].
    change (map (fun x => x =? sep) t) with (Tensor.eq_scalar t sep).
    destruct (Z.eqb_spec x sep) as [->|Hne].
    + assert (a = 0%nat) as ->.
      { assert (E : 0%nat = a \/ 0%nat = b) by (apply H; reflexivity). lia. }
      destruct b as [|b]; [lia|].
      rewrite (nonzero_from_one t (S k) b).
      * cbn [app]. f_equal; [|f_equal]; lia.
      * intros i. specialize (H (S i)). cbn in H. rewrite H. lia.
    + destruct a as [|a].
      * exfalso. apply Hne.
        assert (E : (x :: t) !! 0%nat = Some sep) by (apply H; auto).
        cbn in E. congruence.
      * destruct b as [|b]; [lia|]. cbn [app].
        rewrite (IH (S k) a b).
        -- f_equal; [|f_equal]; lia.
        -- lia.
        -- intros i. specialize (H (S i)). cbn in H. rewrite H. lia.
Qed.

Lemma lookup_slice_fill (t : list Z) (lo hi v : Z) (i : nat) :
  0 <= lo -> 0 <= hi ->
  Tensor.slice_fill t lo hi v !! i
  = (fun x => if bool_decide (lo <= Z.of_nat i < hi) then v else x)
      <$> t !! i.
Proof.
  intros Hlo Hhi. unfold Tensor.slice_fill. rewrite list_lookup_imap.
  destruct (t !! i) as [x|] eqn:E; [|reflexivity]. cbn.
  apply lookup_lt_Some in E. f_equal.
  unfold Tensor.clamp, len.
  destruct (Z.ltb_spec lo 0); [lia|]. destruct (Z.ltb_spec hi 0); [lia|].
  case_bool_decide as Hd.
  - destruct (Z.leb_spec (Z.min lo (Z.of_nat (length t))) (Z.of_nat i));
      [|lia].
    destruct (Z.ltb_spec (Z.of_nat i) (Z.min hi (Z.of_nat (length t))));
      [reflexivity|lia].
  - destruct (Z.leb_spec (Z.min lo (Z.of_nat (length t))) (Z.of_nat i));
      [|reflexivity].
    destruct (Z.ltb_spec (Z.of_nat i) (Z.min hi (Z.of_nat (length t))));
      [lia|reflexivity].
Qed.

End TensorFacts.

Section SegmentIds.

Variable self : BookCorpusForBERT.

Lemma slice_fill_zeros_binary (t : list Z) (lo hi : Z) :
  Forall (fun x => x = 0 \/ x = 1)
    (Tensor.slice_fill (Tensor.zeros_like t) lo hi 1).
Proof.
  apply Forall_lookup. intros i x.
  unfold Tensor.slice_fill. rewrite list_lookup_imap.
  unfold Tensor.zeros_like.
  destruct (replicate (length t) 0 !! i) as [y|] eqn:E; [|discriminate].
  apply lookup_replicate in E as [-> _]. cbn. intros [= <-].
  destruct (_ && _); auto.
Qed.

Lemma length_slice_fill (t : list Z) (lo hi v : Z) :
  length (Tensor.slice_fill t lo hi v) = length t.
Proof. unfold Tensor.slice_fill. apply length_imap. Qed.

Lemma length_zeros_like (t : list Z) :
  length (Tensor.zeros_like t) = length t.
Proof. apply length_replicate. Qed.

(** With two boundary tokens, at [a < b], the slice assignment of line 77
    is reached with exactly these two positions. *)
Lemma segment_ids_two_sep (t : list Z) (a b : nat) :
  (a < b)%nat ->
  (forall i, t !! i = Some (sep_id self) <-> i = a \/ i = b) ->
  _token_ids_to_segment_ids self t
  = Ok (Tensor.slice_fill (Tensor.zeros_like t)
          (Z.of_nat a + 1) (Z.of_nat b + 1) 1).
Proof.
  intros Hab H. unfold _token_ids_to_segment_ids, Tensor.nonzero.
  pose proof (nonzero_from_two (sep_id self) t 0 a b Hab H) as Hnz.
  pose proof (length_nonzero_from (Tensor.eq_scalar t (sep_id self)) 0)
    as Hsum.
  rewrite Hnz in *. cbn [length] in Hsum. rewrite <- Hsum.
  reflexivity.
Qed.

Lemma lookup_segment_fill (t : list Z) (a b i : nat) :
  (i < length t)%nat ->
  Tensor.slice_fill (Tensor.zeros_like t)
    (Z.of_nat a + 1) (Z.of_nat b + 1) 1 !! i
  = Some (if bool_decide (a < i <= b)%nat then 1 else 0).
Proof.
  intros Hi. rewrite lookup_slice_fill by lia.
  unfold Tensor.zeros_like. rewrite lookup_replicate_2 by assumption.
  cbn. f_equal.
  repeat case_bool_decide; try reflexivity; lia.
Qed.

End SegmentIds.

(** C2.  [_token_ids_to_segment_ids] never raises and returns a sequence of
    the same length whose entries are 0 or 1.  When exactly two positions
    [a < b] hold the [SEP] id, position [i] of the result is 1 exactly when
    [a < i <= b]; when the number of [SEP] occurrences is not two, the
    result is all zeros. *)
Theorem C2_segment_ids_shape (self : BookCorpusForBERT) (token_ids : list Z) :
  exists seg_ids,
    _token_ids_to_segment_ids self token_ids = Ok seg_ids
    /\ length seg_ids = length token_ids
    /\ Forall (fun x => x = 0 \/ x = 1) seg_ids
    /\ (forall a b : nat,
          (a < b)%nat ->
          (forall i, token_ids !! i = Some (sep_id self) <-> i = a \/ i = b) ->
          forall i, (i < length token_ids)%nat ->
            seg_ids !! i = Some (if bool_decide (a < i <= b)%nat then 1 else 0))
    /\ (length (filter (fun x => x = sep_id self) token_ids) <> 2%nat ->
        seg_ids = replicate (length token_ids) 0).
Proof.
  assert (Hshape : exists seg_ids,
            _token_ids_to_segment_ids self token_ids = Ok seg_ids
            /\ length seg_ids = length token_ids
            /\ Forall (fun x => x = 0 \/ x = 1) seg_ids).
  { unfold _token_ids_to_segment_ids.
    pose proof (length_nonzero_from
                  (Tensor.eq_scalar token_ids (sep_id self)) 0) as Hlen.
    fold (Tensor.nonzero (Tensor.eq_scalar token_ids (sep_id self))) in Hlen.
    destruct (Z.eqb_spec (Tensor.sum (Tensor.eq_scalar token_ids (sep_id self)))
                2) as [E|E].
    - rewrite E in Hlen.
      destruct (Tensor.nonzero _) as [|a [|b [|c l]]]; cbn [length] in Hlen;
        try lia.
      eexists. split; [reflexivity|]. split.
      + rewrite length_slice_fill. apply length_zeros_like.
      + apply slice_fill_zeros_binary.
    - eexists. split; [reflexivity|]. split.
      + apply length_zeros_like.
      + apply Forall_lookup. intros i x Hx.
        apply lookup_replicate in Hx as [-> _]. auto. }
  destruct Hshape as (seg_ids & Hrun & Hlen & Hbin).
  exists seg_ids. repeat split; try assumption.
  - intros a b Hab Hsep i Hi.
    rewrite (segment_ids_two_sep self token_ids a b Hab Hsep) in Hrun.
    injection Hrun as <-. apply lookup_segment_fill. assumption.
  - intros Hcount. unfold _token_ids_to_segment_ids in Hrun.
    rewrite sum_eq_scalar_filter in Hrun.
    destruct (Z.eqb_spec
                (Z.of_nat (length (filter (fun x => x = sep_id self) token_ids)))
                2) as [E|E]; [lia|].
    injection Hrun as <-. reflexivity.
Qed.

(** C2 on the assembled example sequence, whose boundary tokens sit at
    positions 3 and 6, and on a sequence with a single boundary token. *)
Lemma C2_segment_ids_shape_witness :
  (exists seg_ids,
      _token_ids_to_segment_ids example_ds [1; 5; 6; 2; 7; 6; 2; 0]
      = Ok seg_ids
      /\ seg_ids !! 4%nat = Some 1
      /\ seg_ids !! 7%nat = Some 0)
  /\ _token_ids_to_segment_ids example_ds [1; 5; 2; 0] = Ok [0; 0; 0; 0].
Proof.
  split.
  - destruct (C2_segment_ids_shape example_ds [1; 5; 6; 2; 7; 6; 2; 0])
      as (seg_ids & Hrun & _ & _ & Hpos & _).
    exists seg_ids. split; [exact Hrun|].
    assert (Hsep : forall i : nat,
               [1; 5; 6; 2; 7; 6; 2; 0] !! i = Some (sep_id example_ds)
               <-> i = 3%nat \/ i = 6%nat).
    { intros i. destruct i as [|[|[|[|[|[|[|[|i]]]]]]]]; cbn; split;
        intros E; first [discriminate E | lia | reflexivity]. }
    split.
    + apply (Hpos 3%nat 6%nat ltac:(lia) Hsep 4%nat). cbn. lia.
    + apply (Hpos 3%nat 6%nat ltac:(lia) Hsep 7%nat). cbn. lia.
  - destruct (C2_segment_ids_shape example_ds [1; 5; 2; 0])
      as (seg_ids & Hrun & _ & _ & _ & Hzero).
    rewrite Hrun. f_equal. apply Hzero. vm_compute. lia.
Defined.

(** C1, as the code has it.  In the example scenario (paragraphs [5,6] and
    [7,6], [max_len = 8], [CLS] = 1, [SEP] = 2, [PAD] = 0) the sampler's
    true-successor branch pairs paragraph 0 with paragraph 1 and label 1,
    the assembled sequence is [1,5,6,2,7,6,2,0], and its segment ids are
    [0,0,0,0,1,1,1,0]: segment 1 runs from the position after the first
    boundary token through the second boundary token, and the padding
    position is 0. *)
Theorem C1_example_scenario :
  getitem (ls_token_ids example_ds) 0 = Ok [5; 6]
  /\ _sample_next_sentence example_ds rng_is_next 0 = Ok ([7; 6], 1)
  /\ _to_bert_input example_ds [5; 6] [7; 6] = [1; 5; 6; 2; 7; 6; 2; 0]
  /\ _token_ids_to_segment_ids example_ds
       (_to_bert_input example_ds [5; 6] [7; 6])
     = Ok [0; 0; 0; 0; 1; 1; 1; 0].
Proof. repeat split; vm_compute; reflexivity. Qed.

(** C1, as stated, fails: the segment ids of the example sequence are not
    [0,0,0,0,1,1,1,1]. *)
Lemma C1_example_scenario_counterexample :
  ~ (_to_bert_input example_ds [5; 6] [7; 6] = [1; 5; 6; 2; 7; 6; 2; 0]
     /\ _token_ids_to_segment_ids example_ds
          (_to_bert_input example_ds [5; 6] [7; 6])
        = Ok [0; 0; 0; 0; 1; 1; 1; 1]).
Proof. intros [_ H]. vm_compute in H. discriminate H. Qed.

Section Assembly.

Variable self : BookCorpusForBERT.

(** For a positive [max_len] the slices of lines 56-59 are plain
    truncations, and the method is the algorithm of the specification. *)
Lemma to_bert_input_assemble_spec (prev_token_ids next_token_ids : list Z) :
  1 <= max_len self ->
  _to_bert_input self prev_token_ids next_token_ids
  = assemble_spec (cls_id self) (sep_id self) (pad_id self)
      (Z.to_nat (max_len self)) prev_token_ids next_token_ids.
Proof.
  destruct self as [M c s p u ls]. cbn [max_len cls_id sep_id pad_id].
  intros HM.
  assert (M = 1 \/ M = 2 \/ 3 <= M) as [->|[->|H3]] by lia;
    [reflexivity|reflexivity|].
  unfold _to_bert_input, assemble_spec, slice_to, repeat_item, len.
  cbn [max_len cls_id sep_id pad_id].
  destruct (Z.ltb_spec (M - 3) 0); [lia|].
  destruct (Z.ltb_spec (M - 1) 0); [lia|].
  replace (Z.to_nat (M - 3)) with (Z.to_nat M - 3)%nat by lia.
  replace (Z.to_nat (M - 1)) with (Z.to_nat M - 1)%nat by lia.
  f_equal. f_equal. lia.
Qed.

Lemma length_assemble_spec (cls sep pad : Z) (n : nat) (p q : list Z) :
  (1 <= n)%nat -> length (assemble_spec cls sep pad n p q) = n.
Proof.
  intros Hn. unfold assemble_spec.
  rewrite !length_app, length_replicate, length_take. cbn [length]. lia.
Qed.

End Assembly.

(** C3.  For a sequence length [max_len] of at least 1 and every pair of
    token-id lists, empty ones included, [_to_bert_input] returns exactly
    what the specification's algorithm builds ([CLS], first sentence cut to
    [max_len - 3], [SEP], second sentence; cut to [max_len - 1]; trailing
    [SEP]; padding), and the result has exactly [max_len] entries. *)
Theorem C3_assembled_length (self : BookCorpusForBERT)
    (prev_token_ids next_token_ids : list Z) :
  1 <= max_len self ->
  _to_bert_input self prev_token_ids next_token_ids
  = assemble_spec (cls_id self) (sep_id self) (pad_id self)
      (Z.to_nat (max_len self)) prev_token_ids next_token_ids
  /\ len (_to_bert_input self prev_token_ids next_token_ids) = max_len self.
Proof.
  intros HM. split.
  - apply to_bert_input_assemble_spec. assumption.
  - unfold len. rewrite to_bert_input_assemble_spec by assumption.
    rewrite length_assemble_spec by lia. lia.
Qed.

(** C3 on the example dataset with both sentences empty. *)
Lemma C3_assembled_length_witness :
  _to_bert_input example_ds [] [] = [1; 2; 2; 0; 0; 0; 0; 0]
  /\ len (_to_bert_input example_ds [] []) = 8.
Proof.
  destruct (C3_assembled_length example_ds [] []) as [Heq Hlen].
  - cbn. lia.
  - split; [rewrite Heq; reflexivity | exact Hlen].
Defined.

(** Outside the range of C3: with [max_len = 0] the slice bound [-1] drops
    only the last element, and the result is longer than [max_len]. *)
Lemma to_bert_input_max_len_zero :
  _to_bert_input
    {| max_len := 0; cls_id := 1; sep_id := 2; pad_id := 0; unk_id := 3;
       ls_token_ids := [] |} [] []
  = [1; 2].
Proof. reflexivity. Qed.

Section Boundaries.

Variable sep : Z.

(** In a sequence with two marked positions and no other occurrence of
    the boundary token, the boundary token sits exactly at those two. *)
Lemma lookup_two_boundaries (l1 l2 l3 : list Z) (i : nat) :
  sep ∉ l1 -> sep ∉ l2 -> sep ∉ l3 ->
  (l1 ++ sep :: l2 ++ sep :: l3) !! i = Some sep
  <-> i = length l1 \/ i = (length l1 + 1 + length l2)%nat.
Proof.
  intros H1 H2 H3. split.
  - intros H. apply lookup_app_Some in H as [H|[Hge H]].
    { exfalso. apply H1. eapply list_elem_of_lookup_2. exact H. }
    apply lookup_cons_Some in H as [[H _]|[Hge' H]]; [lia|].
    apply lookup_app_Some in H as [H|[Hge'' H]].
    { exfalso. apply H2. eapply list_elem_of_lookup_2. exact H. }
    apply lookup_cons_Some in H as [[H _]|[_ H]]; [lia|].
    exfalso. apply H3. eapply list_elem_of_lookup_2. exact H.
  - intros [->| ->].
    + rewrite lookup_app_r by lia. rewrite Nat.sub_diag. reflexivity.
    + rewrite lookup_app_r by lia.
      replace (length l1 + 1 + length l2 - length l1)%nat
        with (S (length l2)) by lia.
      change ((sep :: l2 ++ sep :: l3) !! S (length l2))
        with ((l2 ++ sep :: l3) !! length l2).
      rewrite lookup_app_r by lia. rewrite Nat.sub_diag. reflexivity.
Qed.

Lemma not_elem_of_take (l : list Z) (n : nat) : sep ∉ l -> sep ∉ take n l.
Proof.
  intros H Hin. apply H. apply elem_of_take in Hin as (i & Hi & _).
  eapply list_elem_of_lookup_2. exact Hi.
Qed.

End Boundaries.

(** The shape of an assembled sequence when [max_len] is at least 3: the
    first boundary token always survives the truncation to [max_len - 1]. *)
Lemma assemble_spec_shape (cls sep pad : Z) (n : nat) (p q : list Z) :
  (3 <= n)%nat ->
  let p' := take (n - 3) p in
  let q' := take (n - 3 - length p') q in
  assemble_spec cls sep pad n p q
  = (cls :: p') ++ sep :: q'
      ++ sep :: replicate (n - (length p' + length q' + 3)) pad.
Proof.
  intros Hn p' q'. unfold assemble_spec. fold p'.
  assert (Hp : (length p' <= n - 3)%nat).
  { unfold p'. rewrite length_take. lia. }
  change ([cls] ++ p' ++ [sep] ++ q) with (cls :: p' ++ sep :: q).
  replace (cls :: p' ++ sep :: q) with ((cls :: p' ++ [sep]) ++ q)
    by (cbn; rewrite <- app_assoc; reflexivity).
  replace (n - 1)%nat
    with (length (cls :: p' ++ [sep]) + (n - 3 - length p'))%nat
    by (cbn [length]; rewrite length_app; cbn [length]; lia).
  rewrite take_app_add' by reflexivity. fold q'.
  rewrite !length_app. cbn [length]. rewrite length_app. cbn [length].
  cbn [app]. rewrite <- !app_assoc. cbn [app].
  replace (n - (S (length p' + 1) + length q' + 1))%nat
    with (n - (length p' + length q' + 3))%nat by lia.
  reflexivity.
Qed.

(** C10.  When the three special ids are pairwise what a vocabulary makes
    them ([CLS] and [PAD] differ from [SEP]), [max_len] is at least 3 and
    neither sentence contains the [SEP] id, the assembled sequence holds the
    [SEP] id at exactly two positions: [a = min(|prev|, max_len - 3) + 1]
    and the trailing one at [b = min(a + |next| + 1, max_len - 1)], with
    [a < b].  Segment-id derivation then succeeds, marks [b] with 1 and so is
    not the all-zero sequence. *)
Theorem C10_two_boundaries_survive (self : BookCorpusForBERT)
    (prev_token_ids next_token_ids : list Z) :
  cls_id self <> sep_id self ->
  pad_id self <> sep_id self ->
  3 <= max_len self ->
  sep_id self ∉ prev_token_ids ->
  sep_id self ∉ next_token_ids ->
  let token_ids := _to_bert_input self prev_token_ids next_token_ids in
  let a :=
    (Nat.min (length prev_token_ids) (Z.to_nat (max_len self) - 3) + 1)%nat in
  let b :=
    Nat.min (a + length next_token_ids + 1) (Z.to_nat (max_len self) - 1) in
  (a < b)%nat
  /\ (forall i, token_ids !! i = Some (sep_id self) <-> i = a \/ i = b)
  /\ exists seg_ids,
       _token_ids_to_segment_ids self token_ids = Ok seg_ids
       /\ seg_ids !! b = Some 1
       /\ seg_ids <> replicate (length token_ids) 0.
Proof.
  intros Hcls Hpad HM Hprev Hnext token_ids a b.
  assert (Hlen : length token_ids = Z.to_nat (max_len self)).
  { unfold token_ids. rewrite to_bert_input_assemble_spec by lia.
    apply length_assemble_spec. lia. }
  assert (Hab : (a < b)%nat) by (unfold a, b; lia).
  assert (Hsep : forall i,
             token_ids !! i = Some (sep_id self) <-> i = a \/ i = b).
  { intros i. unfold token_ids.
    rewrite to_bert_input_assemble_spec by lia.
    rewrite assemble_spec_shape by lia.
    rewrite lookup_two_boundaries.
    - cbn [length]. rewrite !length_take. unfold a, b. lia.
    - apply not_elem_of_cons. split; [congruence|].
      apply not_elem_of_take. assumption.
    - apply not_elem_of_take. assumption.
    - intros Hin. apply elem_of_replicate_inv in Hin. congruence. }
  split; [exact Hab|]. split; [exact Hsep|].
  eexists. split; [apply (segment_ids_two_sep self token_ids a b Hab Hsep)|].
  assert (Hb : (b < length token_ids)%nat) by (rewrite Hlen; unfold b; lia).
  assert (Hone : Tensor.slice_fill (Tensor.zeros_like token_ids)
                   (Z.of_nat a + 1) (Z.of_nat b + 1) 1 !! b = Some 1).
  { rewrite lookup_segment_fill by exact Hb.
    rewrite bool_decide_eq_true_2 by lia. reflexivity. }
  split; [exact Hone|].
  intros Hzero. rewrite Hzero in Hone.
  rewrite lookup_replicate_2 in Hone by exact Hb. discriminate Hone.
Qed.

(** C10 on the example scenario: boundaries at positions 3 and 6. *)
Lemma C10_two_boundaries_survive_witness :
  (forall i : nat,
      _to_bert_input example_ds [5; 6] [7; 6] !! i = Some 2
      <-> i = 3%nat \/ i = 6%nat)
  /\ exists seg_ids,
       _token_ids_to_segment_ids example_ds
         (_to_bert_input example_ds [5; 6] [7; 6]) = Ok seg_ids
       /\ seg_ids !! 6%nat = Some 1.
Proof.
  destruct (C10_two_boundaries_survive example_ds [5; 6] [7; 6])
    as (_ & Hsep & seg_ids & Hrun & Hone & _).
  - cbn. lia.
  - cbn. lia.
  - cbn. lia.
  - cbn. intros H. repeat (apply elem_of_cons in H as [H|H]; [lia|]).
    apply elem_of_nil in H. exact H.
  - cbn. intros H. repeat (apply elem_of_cons in H as [H|H]; [lia|]).
    apply elem_of_nil in H. exact H.
  - split; [exact Hsep|]. exists seg_ids. split; [exact Hrun | exact Hone].
Defined.

Section Sampler.

Variable self : BookCorpusForBERT.

Lemma getitem_in_range {A} (l : list A) (i : Z) :
  0 <= i < len l ->
  exists x, l !! Z.to_nat i = Some x /\ getitem l i = Ok x.
Proof.
  intros Hi. unfold getitem, len in *.
  destruct (Z.ltb_spec i 0); [lia|].
  destruct (Z.ltb_spec i 0); [lia|].
  destruct (Z.leb_spec (Z.of_nat (length l)) i); [lia|]. cbn.
  destruct (lookup_lt_is_Some_2 l (Z.to_nat i)) as [x Hx]; [lia|].
  exists x. rewrite Hx. split; reflexivity.
Qed.

Lemma getitem_past_end {A} (l : list A) (i : Z) :
  len l <= i -> getitem l i = Raise IndexError.
Proof.
  intros Hi. unfold getitem, len in *.
  destruct (Z.ltb_spec i 0); [lia|].
  destruct (Z.ltb_spec i 0); [lia|].
  destruct (Z.leb_spec (Z.of_nat (length l)) i); [|lia]. reflexivity.
Qed.

Lemma sample_is_next_branch (g : rng) (idx : Z) :
  (random_random g < 1 # 2)%Q ->
  _sample_next_sentence self g idx
  = (next_token_ids ← getitem (ls_token_ids self) (idx + 1);
     Ok (next_token_ids, 1)).
Proof.
  intros Hu. unfold _sample_next_sentence.
  destruct (Qlt_le_dec (random_random g) (1 # 2)) as [_|Hge];
    [reflexivity|].
  exfalso. apply (Qlt_not_le _ _ Hu Hge).
Qed.

End Sampler.

(** C4, on the code.  Whenever the first draw is at least 0.5, so that the
    not-next branch is taken, line 67 hands the integer
    [len(self.ls_token_ids)] to [random.choice], which needs a sequence: the
    call raises [TypeError] for every index, and no label-0 pair is ever
    returned. *)
Theorem C4_not_next_branch_raises (self : BookCorpusForBERT) (g : rng)
    (idx : Z) :
  (1 # 2 <= random_random g)%Q ->
  _sample_next_sentence self g idx = Raise TypeError.
Proof.
  intros Hu. unfold _sample_next_sentence.
  destruct (Qlt_le_dec (random_random g) (1 # 2)) as [Hlt|_];
    [|reflexivity].
  exfalso. apply (Qlt_not_le _ _ Hlt Hu).
Qed.

(** C4 at paragraph 0 of the example dataset with the draw 0.75. *)
Lemma C4_not_next_branch_raises_witness :
  _sample_next_sentence example_ds rng_not_next 0 = Raise TypeError.
Proof.
  apply (C4_not_next_branch_raises example_ds rng_not_next 0).
  vm_compute. intros H. discriminate H.
Defined.

(** C5.  Whenever the first draw is below 0.5, so that the true-successor
    branch is taken, the sampler applied to a paragraph index [idx] returns
    the stored sequence at [idx + 1] with label 1 if [idx] is not the last
    index, and raises [IndexError] if it is. *)
Theorem C5_true_successor_branch (self : BookCorpusForBERT) (g : rng)
    (idx : Z) :
  (random_random g < 1 # 2)%Q ->
  0 <= idx < __len__ self ->
  (idx + 1 < __len__ self ->
   exists next_token_ids,
     ls_token_ids self !! Z.to_nat (idx + 1) = Some next_token_ids
     /\ _sample_next_sentence self g idx = Ok (next_token_ids, 1))
  /\ (idx = __len__ self - 1 ->
      _sample_next_sentence self g idx = Raise IndexError).
Proof.
  intros Hu Hidx. unfold __len__ in *.
  rewrite sample_is_next_branch by exact Hu. split.
  - intros Hnext.
    destruct (getitem_in_range (ls_token_ids self) (idx + 1))
      as (t & Ht & Hget); [lia|].
    exists t. rewrite Hget. split; [exact Ht | reflexivity].
  - intros Hlast. rewrite getitem_past_end by lia. reflexivity.
Qed.

(** C5 on the two paragraphs of the example dataset. *)
Lemma C5_true_successor_branch_witness :
  _sample_next_sentence example_ds rng_is_next 0 = Ok ([7; 6], 1)
  /\ _sample_next_sentence example_ds rng_is_next 1 = Raise IndexError.
Proof.
  assert (Hu : (random_random rng_is_next < 1 # 2)%Q) by reflexivity.
  split.
  - destruct (C5_true_successor_branch example_ds rng_is_next 0 Hu)
      as [Hnext _]; [unfold __len__, len; cbn; lia|].
    destruct Hnext as (t & Ht & Hrun); [unfold __len__, len; cbn; lia|].
    cbn in Ht. injection Ht as <-. exact Hrun.
  - destruct (C5_true_successor_branch example_ds rng_is_next 1 Hu)
      as [_ Hlast]; [unfold __len__, len; cbn; lia|].
    apply Hlast. reflexivity.
Defined.

(** * Properties of the training loop *)

Section LoopFacts.

Context {ModelState OptimState ScalerState : Type}.
Variable config : Config.
Variable env : Collaborators ModelState OptimState ScalerState.

(** [range] peels off its first element. *)
Lemma range_cons (start stop : Z) :
  start < stop -> range start stop = start :: range (start + 1) stop.
Proof.
  intros H. unfold range.
  replace (Z.to_nat (stop - start))
    with (S (Z.to_nat (stop - (start + 1)))) by lia.
  cbn [seq map]. f_equal; [lia|].
  rewrite <- seq_shift, map_map. apply map_ext. intros i. lia.
Qed.

Lemma range_empty (start stop : Z) : stop <= start -> range start stop = [].
Proof.
  intros H. unfold range.
  replace (Z.to_nat (stop - start)) with 0%nat by lia. reflexivity.
Qed.

Lemma loop_steps_cons (init_step n_steps : Z) :
  init_step < n_steps ->
  loop_steps init_step n_steps
  = (init_step + 1) :: loop_steps (init_step + 1) n_steps.
Proof. intros H. unfold loop_steps. apply range_cons. lia. Qed.

(** A loop over a concatenation runs the first part, then the second
    from where the first ended. *)
Lemma for_each_app (l1 l2 : list Z)
    (body : Z -> Locals ModelState OptimState ScalerState ->
            io ModelState OptimState ScalerState
              (Locals ModelState OptimState ScalerState))
    (L : Locals ModelState OptimState ScalerState)
    (w : world ModelState OptimState ScalerState) :
  for_each (l1 ++ l2) body L w
  = io_bind (for_each l1 body L) (for_each l2 body) w.
Proof.
  revert L w. induction l1 as [|step l1 IH]; intros L w; [reflexivity|].
  cbn [app for_each]. unfold io_bind in *.
  destruct (body step L w) as [w1 [L1|e]]; [apply IH | reflexivity].
Qed.

(** Loading a complete checkpoint file resolves every resumed value from
    it. *)
Lemma resume_from_valid (p : pathobj)
    (ckpt : Checkpoint ModelState OptimState ScalerState)
    (model : ModelState) (optim : OptimState) (scaler : ScalerState)
    (w : world ModelState OptimState ScalerState) :
  CKPT_PATH config = Some p ->
  disk w !! path_str p = Some (Valid ckpt) ->
  resume config model optim scaler w
  = (w, Ok (ckpt_model ckpt, ckpt_optimizer ckpt, ckpt_scaler ckpt,
            ckpt_step ckpt, p)).
Proof.
  intros Hp Hfile. unfold resume, io_bind, torch_load.
  rewrite Hp, Hfile. reflexivity.
Qed.

End LoopFacts.

(** C9.  For a positive batch size and sequence length, [N_STEPS] is the
    integer quotient of the token budget 256 * 512 * 1,000,000 by
    [batch_size * MAX_LEN]: the largest [q] with
    [q * (batch_size * MAX_LEN)] within the budget.  For batch size 256 and
    sequence length 512 it is exactly 1,000,000. *)
Theorem C9_total_steps (config : Config) (batch_size : Z) :
  (0 < batch_size -> 0 < MAX_LEN config ->
   exists q,
     N_STEPS config batch_size = Ok q
     /\ q = (256 * 512 * 1000000) / (batch_size * MAX_LEN config)
     /\ q * (batch_size * MAX_LEN config) <= 256 * 512 * 1000000
        < (q + 1) * (batch_size * MAX_LEN config))
  /\ (batch_size = 256 -> MAX_LEN config = 512 ->
      N_STEPS config batch_size = Ok 1000000).
Proof.
  unfold N_STEPS, floordiv. split.
  - intros Hb Hm.
    assert (Hd : 0 < batch_size * MAX_LEN config) by lia.
    destruct (Z.eqb_spec (batch_size * MAX_LEN config) 0); [lia|].
    eexists. split; [reflexivity|]. split; [reflexivity|].
    pose proof (Z.mul_div_le (256 * 512 * 1000000) _ Hd).
    pose proof (Z.mul_succ_div_gt (256 * 512 * 1000000) _ Hd).
    lia.
  - intros -> ->. reflexivity.
Qed.

(** C9 on the recipe configuration, and with half the batch size. *)
Lemma C9_total_steps_witness :
  N_STEPS recipe_config 256 = Ok 1000000
  /\ exists q,
       N_STEPS recipe_config 128 = Ok q
       /\ q * (128 * 512) <= 256 * 512 * 1000000 < (q + 1) * (128 * 512).
Proof.
  split.
  - destruct (C9_total_steps recipe_config 256) as [_ H].
    apply H; reflexivity.
  - destruct (C9_total_steps recipe_config 128) as [H _].
    destruct H as (q & Hrun & _ & Hbounds); [lia | cbn; lia |].
    exists q. split; [exact Hrun | exact Hbounds].
Defined.

(** C8.  If the configured checkpoint path holds the file that
    [save_checkpoint] wrote at step [S], the resume block resolves
    [init_step] to [S] (and the three states to the saved ones), [__main__]
    runs the loop body over [range(S + 1, N_STEPS + 1)], and when [S] is
    below [N_STEPS] the first step of that range is [S + 1].  With no
    checkpoint path, [init_step] is 0 and the first step is 1. *)
Theorem C8_resume_first_step {ModelState OptimState ScalerState : Type}
    (config : Config) (env : Collaborators ModelState OptimState ScalerState)
    (batch_size n_steps S : Z)
    (model model0 : ModelState) (optim optim0 : OptimState)
    (scaler scaler0 : ScalerState)
    (w0 : world ModelState OptimState ScalerState) :
  N_STEPS config batch_size = Ok n_steps ->
  (forall p,
      CKPT_PATH config = Some p ->
      let w := fst (save_checkpoint WriteOk S model optim scaler p w0) in
      resume config model0 optim0 scaler0 w
      = (w, Ok (model, optim, scaler, S, p))
      /\ main config env batch_size model0 optim0 scaler0 w
         = for_each (loop_steps S n_steps)
             (loop_body config env batch_size n_steps)
             (init_locals model optim scaler p) w
      /\ (S < n_steps ->
          loop_steps S n_steps = (S + 1) :: loop_steps (S + 1) n_steps))
  /\ (CKPT_PATH config = None ->
      resume config model0 optim0 scaler0 w0
      = (w0, Ok (model0, optim0, scaler0, 0, Str ".pth"))
      /\ main config env batch_size model0 optim0 scaler0 w0
         = for_each (loop_steps 0 n_steps)
             (loop_body config env batch_size n_steps)
             (init_locals model0 optim0 scaler0 (Str ".pth")) w0
      /\ (0 < n_steps -> loop_steps 0 n_steps = 1 :: loop_steps 1 n_steps)).
Proof.
  intros Hn. split.
  - intros p Hp w.
    assert (Hres : resume config model0 optim0 scaler0 w
                   = (w, Ok (model, optim, scaler, S, p))).
    { apply (resume_from_valid config p
               {| ckpt_step := S; ckpt_optimizer := optim;
                  ckpt_scaler := scaler; ckpt_model := model |});
        [exact Hp|].
      unfold w, save_checkpoint, io_bind, torch_save, print. cbn.
      apply lookup_insert_eq. }
    split; [exact Hres|]. split.
    + unfold main, io_bind, lift. rewrite Hn, Hres. reflexivity.
    + apply loop_steps_cons.
  - intros Hp.
    assert (Hres : resume config model0 optim0 scaler0 w0
                   = (w0, Ok (model0, optim0, scaler0, 0, Str ".pth"))).
    { unfold resume. rewrite Hp. reflexivity. }
    split; [exact Hres|]. split.
    + unfold main, io_bind, lift. rewrite Hn, Hres. reflexivity.
    + intros H. apply (loop_steps_cons 0 n_steps H).
Qed.

(** C8 with a checkpoint written at step 5, and for a fresh run. *)
Lemma C8_resume_first_step_witness :
  (let w :=
     fst (save_checkpoint WriteOk 5 tt tt tt
            (Path "ckpt/bookcorpus_step_5.pth") empty_world) in
   resume resume_config tt tt tt w
   = (w, Ok (tt, tt, tt, 5, Path "ckpt/bookcorpus_step_5.pth"))
   /\ loop_steps 5 1000000 = 6 :: loop_steps 6 1000000)
  /\ (resume recipe_config tt tt tt empty_world
      = (empty_world, Ok (tt, tt, tt, 0, Str ".pth"))
      /\ loop_steps 0 1000000 = 1 :: loop_steps 1 1000000).
Proof.
  split.
  - destruct (C8_resume_first_step resume_config unit_loss_env 256 1000000 5
                tt tt tt tt tt tt empty_world) as [Hres _]; [reflexivity|].
    destruct (Hres (Path "ckpt/bookcorpus_step_5.pth")) as (H1 & _ & H2);
      [reflexivity|].
    split; [exact H1 | apply H2; lia].
  - destruct (C8_resume_first_step recipe_config unit_loss_env 256 1000000 0
                tt tt tt tt tt tt empty_world) as [_ Hfresh]; [reflexivity|].
    destruct Hfresh as (H1 & _ & H2); [reflexivity|].
    split; [exact H1 | apply H2; lia].
Defined.

Section Reporting.

Context {ModelState OptimState ScalerState : Type}.

(** Lines 165-166 rebind the unused [running_loss] and [step_cnt]; the two
    sums that the progress line reads are left as they are. *)
Lemma report_keeps_running_sums (n_steps step : Z)
    (L L' : Locals ModelState OptimState ScalerState)
    (w w' : world ModelState OptimState ScalerState) :
  report n_steps step L w = (w', Ok L') ->
  running_nsp_loss L' = running_nsp_loss L
  /\ running_mlm_loss L' = running_mlm_loss L
  /\ running_loss L' = Some 0
  /\ step_cnt L' = 0.
Proof.
  unfold report, io_bind, lift, print, io_ret, truediv.
  destruct (step_cnt L =? 0); [discriminate|].
  intros [= _ <-]. repeat split; reflexivity.
Qed.

End Reporting.

(** C7, on the code.  In a fresh run of the recipe configuration with a
    report at every step and both losses equal to 1 at every step, the
    first two iterations are those of steps 1 and 2 and the run goes on from
    the state they leave.  In that state the output holds the progress lines
    of step 1 with means 1 and of step 2 with means 2: the second line
    divides the sums over both steps by the count since the first report.
    The two sums still stand at 2 after the second report, while the count
    is back at 0. *)
Theorem C7_report_keeps_sums :
  exists w L,
    for_each [1; 2] (loop_body recipe_config unit_loss_env 256 1000000)
      (init_locals tt tt tt (Str ".pth")) empty_world
    = (w, Ok L)
    /\ main recipe_config unit_loss_env 256 tt tt tt empty_world
       = for_each (loop_steps 2 1000000)
           (loop_body recipe_config unit_loss_env 256 1000000) L w
    /\ stdout w
       = [Progress 1 1000000 1 1; SavedCheckpoint;
          Progress 2 1000000 2 2; SavedCheckpoint]
    /\ running_nsp_loss L = 2%Q
    /\ running_mlm_loss L = 2%Q
    /\ step_cnt L = 0.
Proof.
  eexists. eexists.
  assert (Hrun : for_each [1; 2]
                   (loop_body recipe_config unit_loss_env 256 1000000)
                   (init_locals tt tt tt (Str ".pth")) empty_world
                 = _) by (vm_compute; reflexivity).
  split; [exact Hrun|]. split.
  - unfold main, io_bind at 1 2, lift, resume, io_ret.
    change (N_STEPS recipe_config 256) with (Ok 1000000).
    cbv beta iota. change (CKPT_PATH recipe_config) with (@None pathobj).
    cbv beta iota.
    rewrite (loop_steps_cons 0) by lia. rewrite (loop_steps_cons 1) by lia.
    change (0 + 1 :: 1 + 1 :: loop_steps (1 + 1) 1000000)
      with ([1; 2] ++ loop_steps 2 1000000).
    rewrite for_each_app. unfold io_bind. rewrite Hrun. reflexivity.
  - repeat split; reflexivity.
Qed.

Section Rotation.

Context {ModelState OptimState ScalerState : Type}.
Variable config : Config.
Variable env : Collaborators ModelState OptimState ScalerState.

Lemma string_length_app (s t : string) :
  String.length (s +:+ t) = (String.length s + String.length t)%nat.
Proof.
  induction s as [|a s IH]; [reflexivity|].
  change (S (String.length (s +:+ t))
          = S (String.length s + String.length t)).
  rewrite IH. reflexivity.
Qed.

Lemma string_app_inj_r (s1 s2 t : string) :
  s1 +:+ t = s2 +:+ t -> s1 = s2.
Proof.
  revert s2. induction s1 as [|a s1 IH]; intros [|b s2] H.
  - reflexivity.
  - apply (f_equal String.length) in H.
    rewrite !string_length_app in H. cbn [String.length] in H. lia.
  - apply (f_equal String.length) in H.
    rewrite !string_length_app in H. cbn [String.length] in H. lia.
  - change (String a (s1 +:+ t) = String b (s2 +:+ t)) in H.
    injection H as -> H. f_equal. apply IH. exact H.
Qed.

(** Distinct steps name distinct checkpoint files. *)
Lemma ckpt_path_of_inj (s1 s2 : Z) :
  path_str (ckpt_path_of config s1) = path_str (ckpt_path_of config s2) ->
  s1 = s2.
Proof.
  unfold ckpt_path_of, path_str. intros H.
  apply String.app_inj in H. apply String.app_inj in H.
  apply string_app_inj_r in H. apply pretty_Z_inj in H. exact H.
Qed.

(** A write that fails ends the rotation before line 172. *)
Lemma rotation_write_fails (step : Z)
    (L : Locals ModelState OptimState ScalerState)
    (w : world ModelState OptimState ScalerState) :
  save_outcome env step <> WriteOk ->
  exists w',
    checkpoint_rotation config env step L w = (w', Raise OSError)
    /\ forall f, f <> path_str (ckpt_path_of config step) ->
                 disk w' !! f = disk w !! f.
Proof.
  intros Hfail.
  unfold checkpoint_rotation, save_checkpoint, io_bind, torch_save.
  destruct (save_outcome env step); [congruence| |].
  - exists w. split; [reflexivity|]. reflexivity.
  - eexists. split; [reflexivity|]. intros f Hf. cbn [disk].
    apply lookup_insert_ne. congruence.
Qed.

(** A write that succeeds is followed by the removal of the previous
    file. *)
Lemma rotation_write_ok (step : Z)
    (L : Locals ModelState OptimState ScalerState)
    (w : world ModelState OptimState ScalerState) :
  save_outcome env step = WriteOk ->
  path_str (prev_ckpt_path L) <> path_str (ckpt_path_of config step) ->
  dom (disk w) ⊆ {[path_str (prev_ckpt_path L)]} ->
  is_Path (prev_ckpt_path L)
    \/ disk w !! path_str (prev_ckpt_path L) = None ->
  exists w' L',
    checkpoint_rotation config env step L w = (w', Ok L')
    /\ prev_ckpt_path L' = ckpt_path_of config step
    /\ disk w'
       = {[path_str (ckpt_path_of config step) := Valid (ckpt_of step L)]}.
Proof.
  intros Hok Hne Hdom Hprev.
  set (cur := path_str (ckpt_path_of config step)) in *.
  assert (Hother : forall f, f <> path_str (prev_ckpt_path L) ->
                             disk w !! f = None).
  { intros f Hf. apply not_elem_of_dom. intros Hin. apply Hdom in Hin.
    apply elem_of_singleton in Hin. congruence. }
  unfold checkpoint_rotation, save_checkpoint, io_bind, torch_save, print,
    exists_, io_ret.
  rewrite Hok. cbn [disk stdout]. fold cur.
  rewrite lookup_insert_ne by congruence.
  destruct (disk w !! path_str (prev_ckpt_path L)) as [old|] eqn:Hold.
  - rewrite bool_decide_eq_true_2 by eauto.
    destruct Hprev as [Hpath|Hnone]; [|discriminate].
    destruct (prev_ckpt_path L) as [s|s] eqn:Hp; [destruct Hpath|].
    cbn [path_str] in *. unfold unlink. cbn [disk stdout].
    rewrite lookup_insert_ne by congruence. rewrite Hold.
    eexists. eexists. split; [reflexivity|]. split; [reflexivity|].
    cbn [disk]. apply map_eq. intros f.
    destruct (decide (f = s)) as [->|Hfs].
    + rewrite lookup_delete_eq, lookup_singleton_ne by congruence.
      reflexivity.
    + rewrite lookup_delete_ne by congruence.
      destruct (decide (f = cur)) as [->|Hfc].
      * rewrite lookup_insert_eq, lookup_singleton_eq. reflexivity.
      * rewrite lookup_insert_ne, lookup_singleton_ne by congruence.
        apply Hother. exact Hfs.
  - rewrite bool_decide_eq_false_2 by (intros [? ?]; discriminate).
    eexists. eexists. split; [reflexivity|]. split; [reflexivity|].
    cbn [disk]. apply map_eq. intros f.
    destruct (decide (f = cur)) as [->|Hfc].
    + rewrite lookup_insert_eq, lookup_singleton_eq. reflexivity.
    + rewrite lookup_insert_ne, lookup_singleton_ne by congruence.
      destruct (decide (f = path_str (prev_ckpt_path L))) as [->|Hfp];
        [exact Hold | apply Hother; exact Hfp].
Qed.

End Rotation.

Section RotationInvariant.

Context {ModelState OptimState ScalerState : Type}.
Variable config : Config.
Variable env : Collaborators ModelState OptimState ScalerState.
Variables batch_size n_steps : Z.

Lemma report_frame (step : Z)
    (L L' : Locals ModelState OptimState ScalerState)
    (w w' : world ModelState OptimState ScalerState) :
  report n_steps step L w = (w', Ok L') ->
  disk w' = disk w /\ prev_ckpt_path L' = prev_ckpt_path L.
Proof.
  unfold report, io_bind, lift, print, io_ret, truediv.
  destruct (step_cnt L =? 0); [discriminate|].
  intros [= <- <-]. split; reflexivity.
Qed.

Lemma rotation_inv_mono (s s' : Z)
    (L : Locals ModelState OptimState ScalerState)
    (w : world ModelState OptimState ScalerState) :
  s <= s' -> rotation_inv config s L w -> rotation_inv config s' L w.
Proof.
  intros Hs (Hdom & Hprev & Hfresh). repeat split; try assumption.
  intros t Ht. apply Hfresh. lia.
Qed.

(** One iteration that ends normally re-establishes the invariant, and an
    iteration that checkpoints leaves exactly the file of its step. *)
Lemma loop_body_keeps_inv (s0 step : Z)
    (L L' : Locals ModelState OptimState ScalerState)
    (w w' : world ModelState OptimState ScalerState) :
  s0 < step ->
  rotation_inv config s0 L w ->
  loop_body config env batch_size n_steps step L w = (w', Ok L') ->
  rotation_inv config step L' w'
  /\ (is_report_step config batch_size n_steps step = Ok true ->
      dom (disk w') = {[path_str (ckpt_path_of config step)]}).
Proof.
  intros Hstep Hinv. unfold loop_body.
  destruct (train_step env step (model L, optim L, scaler L))
    as [[[model' optim'] scaler'] [nsp_loss mlm_loss]].
  set (L1 := Build_Locals _ _ _ _ _ _ _ _).
  assert (Hinv1 : rotation_inv config s0 L1 w) by exact Hinv.
  clearbody L1. clear Hinv. unfold io_bind at 1. unfold lift.
  destruct (is_report_step config batch_size n_steps step) as [[|]|e];
    [| |discriminate].
  - unfold io_bind.
    destruct (report n_steps step L1 w) as [w1 [L2|e]] eqn:Hrep;
      [|discriminate].
    apply report_frame in Hrep as [Hdisk Hprev].
    destruct Hinv1 as (Hdom & Hpath & Hfresh).
    rewrite <- Hdisk, <- Hprev in Hdom, Hpath. rewrite <- Hprev in Hfresh.
    intros Hrot.
    assert (save_outcome env step = WriteOk
            \/ save_outcome env step <> WriteOk) as [Hok|Hfail]
      by (destruct (save_outcome env step);
          [left; reflexivity | right; discriminate..]).
    + destruct (rotation_write_ok config env step L2 w1 Hok
                  (Hfresh step Hstep) Hdom Hpath)
        as (w2 & L3 & Hrun & Hcur & Hfile).
      rewrite Hrun in Hrot. injection Hrot as <- <-.
      assert (Hd : dom (disk w2) = {[path_str (ckpt_path_of config step)]}).
      { rewrite Hfile. apply dom_singleton_L. }
      split; [|intros _; exact Hd].
      repeat split.
      * rewrite Hd, Hcur. reflexivity.
      * left. rewrite Hcur. exact I.
      * intros t Ht Heq. rewrite Hcur in Heq.
        apply ckpt_path_of_inj in Heq. lia.
    + destruct (rotation_write_fails config env step L2 w1 Hfail)
        as (w2 & Hrun & _).
      rewrite Hrun in Hrot. discriminate Hrot.
  - unfold io_ret. intros [= <- <-]. split; [|discriminate].
    apply (rotation_inv_mono s0); [lia | exact Hinv1].
Qed.

(** A run over consecutive steps that ends normally keeps the
    invariant. *)
Lemma for_each_keeps_inv (n : nat) :
  forall (a b : Z)
         (L L' : Locals ModelState OptimState ScalerState)
         (w w' : world ModelState OptimState ScalerState),
    Z.to_nat (b - a) = n ->
    rotation_inv config (a - 1) L w ->
    for_each (range a b) (loop_body config env batch_size n_steps) L w
    = (w', Ok L') ->
    rotation_inv config (Z.max (a - 1) (b - 1)) L' w'.
Proof.
  induction n as [|n IH]; intros a b L L' w w' Hn Hinv Hrun.
  - rewrite range_empty in Hrun by lia. cbn in Hrun.
    injection Hrun as <- <-.
    apply (rotation_inv_mono (a - 1)); [lia | exact Hinv].
  - rewrite range_cons in Hrun by lia. cbn [for_each] in Hrun.
    unfold io_bind in Hrun.
    destruct (loop_body config env batch_size n_steps a L w)
      as [w1 [L1|e]] eqn:Hbody; [|discriminate].
    apply (loop_body_keeps_inv (a - 1)) in Hbody as [Hinv1 _];
      [|lia|exact Hinv].
    replace a with (a + 1 - 1) in Hinv1 at 1 by lia.
    specialize (IH (a + 1) b L1 L' w1 w' ltac:(lia) Hinv1 Hrun).
    apply (rotation_inv_mono (Z.max (a + 1 - 1) (b - 1))); [lia|exact IH].
Qed.

(** A fresh run on a disk without checkpoint files starts inside the
    invariant: the placeholder [".pth"] is no checkpoint name. *)
Lemma fresh_run_inv (model : ModelState) (optim : OptimState)
    (scaler : ScalerState) (w : world ModelState OptimState ScalerState) :
  disk w = ∅ ->
  rotation_inv config 0 (init_locals model optim scaler (Str ".pth")) w.
Proof.
  intros Hempty. unfold rotation_inv. cbn [init_locals prev_ckpt_path].
  rewrite Hempty. repeat split.
  - rewrite dom_empty_L. apply empty_subseteq.
  - right. apply lookup_empty.
  - intros s _ Heq. apply (f_equal String.length) in Heq.
    unfold ckpt_path_of, path_str in Heq.
    rewrite !string_length_app in Heq. cbn [String.length] in Heq. lia.
Qed.

(** A fresh run that ends normally leaves at most one checkpoint file,
    the one it remembers. *)
Lemma main_fresh_keeps_inv (model : ModelState) (optim : OptimState)
    (scaler : ScalerState)
    (L' : Locals ModelState OptimState ScalerState)
    (w w' : world ModelState OptimState ScalerState) :
  CKPT_PATH config = None ->
  N_STEPS config batch_size = Ok n_steps ->
  disk w = ∅ ->
  main config env batch_size model optim scaler w = (w', Ok L') ->
  dom (disk w') ⊆ {[path_str (prev_ckpt_path L')]}.
Proof.
  intros Hp Hn Hempty. unfold main, io_bind at 1 2, lift, resume.
  rewrite Hn, Hp. unfold io_ret. unfold loop_steps. intros Hrun.
  apply (for_each_keeps_inv (Z.to_nat (n_steps + 1 - (0 + 1)))
           (0 + 1) (n_steps + 1)) in Hrun as [Hdom _].
  - exact Hdom.
  - reflexivity.
  - apply fresh_run_inv. exact Hempty.
Qed.

End RotationInvariant.

(** C6.  At a checkpoint event whose target file is not the previous
    checkpoint file: if the write fails, before or midway, the event ends
    with the write's exception and the previous file is as it was; if the
    write succeeds, and the previous path is the only checkpoint file that
    can be on disk and is a [pathlib.Path] whenever its file exists, the
    event ends normally with exactly one checkpoint file on disk, the new
    one, holding the record of this step, and the new path is remembered
    as the previous one. *)
Theorem C6_rotation_deletes_after_write
    {ModelState OptimState ScalerState : Type}
    (config : Config) (env : Collaborators ModelState OptimState ScalerState)
    (step : Z) (L : Locals ModelState OptimState ScalerState)
    (w : world ModelState OptimState ScalerState) :
  path_str (prev_ckpt_path L) <> path_str (ckpt_path_of config step) ->
  (save_outcome env step <> WriteOk ->
   exists w',
     checkpoint_rotation config env step L w = (w', Raise OSError)
     /\ disk w' !! path_str (prev_ckpt_path L)
        = disk w !! path_str (prev_ckpt_path L))
  /\ (save_outcome env step = WriteOk ->
      dom (disk w) ⊆ {[path_str (prev_ckpt_path L)]} ->
      is_Path (prev_ckpt_path L)
        \/ disk w !! path_str (prev_ckpt_path L) = None ->
      exists w' L',
        checkpoint_rotation config env step L w = (w', Ok L')
        /\ prev_ckpt_path L' = ckpt_path_of config step
        /\ dom (disk w') = {[path_str (ckpt_path_of config step)]}
        /\ disk w' !! path_str (ckpt_path_of config step)
           = Some (Valid (ckpt_of step L))).
Proof.
  intros Hne. split.
  - intros Hfail.
    destruct (rotation_write_fails config env step L w Hfail)
      as (w' & Hrun & Hframe).
    exists w'. split; [exact Hrun|]. apply Hframe. exact Hne.
  - intros Hok Hdom Hprev.
    destruct (rotation_write_ok config env step L w Hok Hne Hdom Hprev)
      as (w' & L' & Hrun & Hcur & Hfile).
    exists w', L'. split; [exact Hrun|]. split; [exact Hcur|].
    rewrite Hfile. split.
    + apply dom_singleton_L.
    + apply lookup_singleton_eq.
Qed.

(** C6 at the checkpoint of step 2, after the one of step 1: with a write
    that fails midway the file of step 1 is still there; with a write that
    succeeds only the file of step 2 is. *)
Lemma C6_rotation_deletes_after_write_witness :
  (exists w',
      checkpoint_rotation recipe_config midway_failure_env 2
        locals_after_step_1 world_after_step_1 = (w', Raise OSError)
      /\ disk w' !! "ckpt/bookcorpus_step_1.pth"
         = Some (Valid (ckpt_of 1 locals_after_step_1)))
  /\ (exists w' L',
         checkpoint_rotation recipe_config unit_loss_env 2
           locals_after_step_1 world_after_step_1 = (w', Ok L')
         /\ dom (disk w') = {["ckpt/bookcorpus_step_2.pth"]}).
Proof.
  assert (Hne : path_str (prev_ckpt_path locals_after_step_1)
                <> path_str (ckpt_path_of recipe_config 2)).
  { vm_compute. intros H. discriminate H. }
  split.
  - destruct (C6_rotation_deletes_after_write recipe_config
                midway_failure_env 2 locals_after_step_1 world_after_step_1
                Hne) as [Hfail _].
    destruct Hfail as (w' & Hrun & Hkeep); [cbn; discriminate|].
    exists w'. split; [exact Hrun|]. etransitivity; [exact Hkeep|].
    apply lookup_singleton_eq.
  - destruct (C6_rotation_deletes_after_write recipe_config
                unit_loss_env 2 locals_after_step_1 world_after_step_1
                Hne) as [_ Hok].
    destruct Hok as (w' & L' & Hrun & _ & Hdom & _).
    + reflexivity.
    + cbn [disk world_after_step_1 prev_ckpt_path locals_after_step_1
             path_str].
      rewrite dom_singleton_L. reflexivity.
    + left. exact I.
    + exists w', L'. split; [exact Hrun | exact Hdom].
Defined.

(** * Further properties of the dataset *)

Section AssemblyCases.

Variable self : BookCorpusForBERT.

(** Whatever [max_len] is, the method ends the unpadded part with the
    boundary token. *)
Lemma to_bert_input_nonempty (prev_token_ids next_token_ids : list Z) :
  1 <= len (_to_bert_input self prev_token_ids next_token_ids).
Proof.
  unfold _to_bert_input, len. rewrite !length_app. cbn [length]. lia.
Qed.




End AssemblyCases.

(** X1.  A pair that fits ([len prev + len next + 3 <= max_len]) is packed
    without loss: [CLS], the whole first sentence, [SEP], the whole second
    sentence, [SEP], and then only padding. *)
Theorem X1_assemble_fits (self : BookCorpusForBERT)
    (prev_token_ids next_token_ids : list Z) :
  len prev_token_ids + len next_token_ids + 3 <= max_len self ->
  _to_bert_input self prev_token_ids next_token_ids
  = cls_id self :: prev_token_ids ++ sep_id self :: next_token_ids
      ++ sep_id self
      :: replicate
           (Z.to_nat (max_len self
                      - (len prev_token_ids + len next_token_ids + 3)))
           (pad_id self).
Proof.
  unfold len. intros Hfit.
  rewrite to_bert_input_assemble_spec by lia.
  rewrite assemble_spec_shape by lia. cbn zeta.
  rewrite (take_ge prev_token_ids) by lia.
  rewrite (take_ge next_token_ids) by lia.
  cbn [app].
  replace (Z.to_nat (max_len self)
           - (length prev_token_ids + length next_token_ids + 3))%nat
    with (Z.to_nat
            (max_len self
             - (Z.of_nat (length prev_token_ids)
                + Z.of_nat (length next_token_ids) + 3))) by lia.
  reflexivity.
Qed.

(** X1 on the example scenario. *)
Lemma X1_assemble_fits_witness :
  _to_bert_input example_ds [5; 6] [7; 6] = [1; 5; 6; 2; 7; 6; 2; 0].
Proof.
  rewrite (X1_assemble_fits example_ds [5; 6] [7; 6]); [reflexivity|].
  vm_compute. discriminate.
Defined.

(** X2.  For [max_len >= 3], a first sentence of at least [max_len - 3]
    tokens leaves no room for the second: the result is [CLS], the first
    [max_len - 3] tokens of the first sentence and two boundary tokens,
    whatever the second sentence is. *)
Theorem X2_assemble_first_fills (self : BookCorpusForBERT)
    (prev_token_ids next_token_ids : list Z) :
  3 <= max_len self ->
  max_len self - 3 <= len prev_token_ids ->
  _to_bert_input self prev_token_ids next_token_ids
  = cls_id self :: take (Z.to_nat (max_len self - 3)) prev_token_ids
      ++ [sep_id self; sep_id self].
Proof.
  unfold len. intros HM Hlong.
  rewrite to_bert_input_assemble_spec by lia.
  rewrite assemble_spec_shape by lia. cbn zeta.
  replace (Z.to_nat (max_len self) - 3)%nat
    with (Z.to_nat (max_len self - 3)) by lia.
  rewrite length_take.
  replace (Z.to_nat (max_len self - 3)
           - Z.to_nat (max_len self - 3) `min` length prev_token_ids)%nat
    with 0%nat by lia.
  rewrite take_0. cbn [length app].
  replace (Z.to_nat (max_len self)
           - (Z.to_nat (max_len self - 3) `min` length prev_token_ids
              + 0 + 3))%nat
    with 0%nat by lia.
  reflexivity.
Qed.

(** X2 with [max_len = 8] and a first sentence of six tokens. *)
Lemma X2_assemble_first_fills_witness :
  _to_bert_input example_ds [5; 6; 7; 8; 9; 10] [7; 6]
  = [1; 5; 6; 7; 8; 9; 2; 2].
Proof.
  rewrite (X2_assemble_first_fills example_ds [5; 6; 7; 8; 9; 10] [7; 6]).
  - reflexivity.
  - vm_compute. discriminate.
  - vm_compute. discriminate.
Defined.

(** X3.  With [max_len = 1] the result is the boundary token alone, and
    with [max_len = 2] it is [CLS] and the boundary token: both sentences
    are dropped, whatever they are. *)
Theorem X3_assemble_tiny_max_len (self : BookCorpusForBERT)
    (prev_token_ids next_token_ids : list Z) :
  (max_len self = 1 ->
   _to_bert_input self prev_token_ids next_token_ids = [sep_id self])
  /\ (max_len self = 2 ->
      _to_bert_input self prev_token_ids next_token_ids
      = [cls_id self; sep_id self]).
Proof.
  destruct self as [M c s p u ls]. cbn [max_len cls_id sep_id].
  split; intros ->; reflexivity.
Qed.

(** X3 on datasets with [max_len] 1 and 2. *)
Lemma X3_assemble_tiny_max_len_witness :
  _to_bert_input
    {| max_len := 1; cls_id := 1; sep_id := 2; pad_id := 0; unk_id := 3;
       ls_token_ids := [] |} [5; 6] [7; 6] = [2]
  /\ _to_bert_input
       {| max_len := 2; cls_id := 1; sep_id := 2; pad_id := 0; unk_id := 3;
          ls_token_ids := [] |} [5; 6] [7; 6] = [1; 2].
Proof.
  split.
  - apply (X3_assemble_tiny_max_len
             {| max_len := 1; cls_id := 1; sep_id := 2; pad_id := 0;
                unk_id := 3; ls_token_ids := [] |} [5; 6] [7; 6]).
    reflexivity.
  - apply (X3_assemble_tiny_max_len
             {| max_len := 2; cls_id := 1; sep_id := 2; pad_id := 0;
                unk_id := 3; ls_token_ids := [] |} [5; 6] [7; 6]).
    reflexivity.
Defined.

(** X4.  The result always holds at least one token, and its length is
    [max_len] exactly when [max_len] is at least 1: for [max_len <= 0] the
    negative slice bounds of lines 57-58 apply and nothing is padded. *)
Theorem X4_assemble_length_iff (self : BookCorpusForBERT)
    (prev_token_ids next_token_ids : list Z) :
  1 <= len (_to_bert_input self prev_token_ids next_token_ids)
  /\ (len (_to_bert_input self prev_token_ids next_token_ids) = max_len self
      <-> 1 <= max_len self).
Proof.
  pose proof (to_bert_input_nonempty self prev_token_ids next_token_ids)
    as Hne.
  split; [exact Hne|]. split.
  - intros Heq. lia.
  - intros HM. unfold len. rewrite to_bert_input_assemble_spec by exact HM.
    rewrite length_assemble_spec by lia. lia.
Qed.



(** X4 on a dataset with [max_len = 0]: two tokens come back. *)
Lemma X4_assemble_length_iff_witness :
  len (_to_bert_input
         {| max_len := 0; cls_id := 1; sep_id := 2; pad_id := 0;
            unk_id := 3; ls_token_ids := [] |} [] []) <> 0.
Proof.
  destruct (X4_assemble_length_iff
              {| max_len := 0; cls_id := 1; sep_id := 2; pad_id := 0;
                 unk_id := 3; ls_token_ids := [] |} [] []) as [Hpos _].
  lia.
Defined.

Section SamplerBounds.

Variable self : BookCorpusForBERT.

Lemma getitem_negative {A} (l : list A) (i : Z) :
  - len l <= i < 0 ->
  exists x, l !! Z.to_nat (i + len l) = Some x /\ getitem l i = Ok x.
Proof.
  intros Hi. unfold getitem, len in *.
  destruct (Z.ltb_spec i 0); [|lia].
  destruct (Z.ltb_spec (i + Z.of_nat (length l)) 0); [lia|].
  destruct (Z.leb_spec (Z.of_nat (length l)) (i + Z.of_nat (length l)));
    [lia|]. cbn.
  destruct (lookup_lt_is_Some_2 l (Z.to_nat (i + Z.of_nat (length l))))
    as [x Hx]; [lia|].
  exists x. rewrite Hx. split; reflexivity.
Qed.

Lemma getitem_before_start {A} (l : list A) (i : Z) :
  i < - len l -> getitem l i = Raise IndexError.
Proof.
  intros Hi. unfold getitem, len in *.
  destruct (Z.ltb_spec i 0); [|lia].
  destruct (Z.ltb_spec (i + Z.of_nat (length l)) 0); [|lia]. reflexivity.
Qed.

End SamplerBounds.

(** X6.  In the true-successor branch, for any integer index: when
    [-len <= idx + 1 < len] the sampler returns label 1 with the stored
    sequence at position [(idx + 1) mod len], so that [idx = -1] yields
    paragraph 0; outside that range it raises [IndexError]. *)
Theorem X6_true_successor_any_index (self : BookCorpusForBERT) (g : rng)
    (idx : Z) :
  (random_random g < 1 # 2)%Q ->
  (- __len__ self <= idx + 1 < __len__ self ->
   exists next_token_ids,
     ls_token_ids self !! Z.to_nat ((idx + 1) mod __len__ self)
     = Some next_token_ids
     /\ _sample_next_sentence self g idx = Ok (next_token_ids, 1))
  /\ (idx + 1 < - __len__ self \/ __len__ self <= idx + 1 ->
      _sample_next_sentence self g idx = Raise IndexError).
Proof.
  intros Hu. unfold __len__. rewrite sample_is_next_branch by exact Hu.
  split.
  - intros Hrange.
    destruct (Z.lt_ge_cases (idx + 1) 0) as [Hneg|Hpos].
    + destruct (getitem_negative (ls_token_ids self) (idx + 1))
        as (t & Ht & Hget); [lia|].
      exists t. rewrite Hget. split; [|reflexivity].
      rewrite <- (Z_mod_plus_full (idx + 1) 1 (len (ls_token_ids self))).
      rewrite Z.mod_small by lia.
      rewrite Z.mul_1_l. exact Ht.
    + destruct (getitem_in_range (ls_token_ids self) (idx + 1))
        as (t & Ht & Hget); [lia|].
      exists t. rewrite Hget. split; [|reflexivity].
      rewrite Z.mod_small by lia. exact Ht.
  - intros [Hlow|Hhigh].
    + rewrite getitem_before_start by lia. reflexivity.
    + rewrite getitem_past_end by lia. reflexivity.
Qed.

(** X6 on the example dataset: index -1 is paired with paragraph 0, and
    index -4 is out of range. *)
Lemma X6_true_successor_any_index_witness :
  _sample_next_sentence example_ds rng_is_next (-1) = Ok ([5; 6], 1)
  /\ _sample_next_sentence example_ds rng_is_next (-4) = Raise IndexError.
Proof.
  assert (Hu : (random_random rng_is_next < 1 # 2)%Q) by reflexivity.
  split.
  - destruct (X6_true_successor_any_index example_ds rng_is_next (-1) Hu)
      as [Hin _].
    destruct Hin as (t & Ht & Hrun); [unfold __len__, len; cbn; lia|].
    vm_compute in Ht. injection Ht as <-. exact Hrun.
  - destruct (X6_true_successor_any_index example_ds rng_is_next (-4) Hu)
      as [_ Hout].
    apply Hout. left. unfold __len__, len. cbn. lia.
Defined.

(** X7.  [__getitem__] returns no example: for every index and every
    draw it raises.  In particular, when the paragraph exists and the
    sampler succeeds, line 87 hands the list built by [_to_bert_input] to
    [_token_ids_to_segment_ids], whose first line reads the attribute
    [dtype] that a list does not have, and the call raises
    [AttributeError]. *)
Theorem X7_getitem_always_raises (self : BookCorpusForBERT) (g : rng)
    (idx : Z) :
  (exists e, __getitem__ self g idx = Raise e)
  /\ (forall prev_token_ids next_token_ids is_next,
         getitem (ls_token_ids self) idx = Ok prev_token_ids ->
         _sample_next_sentence self g idx = Ok (next_token_ids, is_next) ->
         __getitem__ self g idx = Raise AttributeError).
Proof.
  unfold __getitem__. split.
  - destruct (getitem (ls_token_ids self) idx) as [p|e]; cbn; [|eauto].
    destruct (_sample_next_sentence self g idx) as [[n l]|e]; cbn; eauto.
  - intros p n l -> ->. reflexivity.
Qed.

(** X7 on paragraph 0 of the example dataset, in the true-successor
    branch. *)
Lemma X7_getitem_always_raises_witness :
  __getitem__ example_ds rng_is_next 0 = Raise AttributeError.
Proof.
  destruct (X7_getitem_always_raises example_ds rng_is_next 0) as [_ H].
  apply (H [5; 6] [7; 6] 1); reflexivity.
Defined.

(** * Properties of corpus parsing *)

Section StripFacts.

Lemma lstrip_decompose (s : list N) :
  exists l, s = l ++ lstrip s /\ blank l.
Proof.
  unfold blank.
  induction s as [|c s (l & Hs & Hl)];
    [exists []; split; [reflexivity | constructor]|].
  cbn [lstrip]. destruct (isspace c) eqn:Hc.
  - exists (c :: l). split; [cbn; f_equal; exact Hs|].
    constructor; assumption.
  - exists []. split; [reflexivity | constructor].
Qed.

Lemma lstrip_head (s : list N) (c : N) :
  head (lstrip s) = Some c -> isspace c = false.
Proof.
  induction s as [|d s IH]; [discriminate|].
  cbn [lstrip]. destruct (isspace d) eqn:Hd; [exact IH|].
  cbn. intros [= <-]. exact Hd.
Qed.

Lemma lstrip_nil_iff (s : list N) : lstrip s = [] <-> blank s.
Proof.
  unfold blank.
  induction s as [|c s IH]; [split; [constructor | reflexivity]|].
  cbn [lstrip]. destruct (isspace c) eqn:Hc.
  - rewrite IH. split; [intros H; constructor; assumption|].
    intros H. apply Forall_cons in H as [_ H]. exact H.
  - split; [discriminate|].
    intros H. apply Forall_cons in H as [H _]. congruence.
Qed.

Lemma rstrip_decompose (t : list N) :
  exists r, t = rstrip t ++ r /\ blank r.
Proof.
  destruct (lstrip_decompose (reverse t)) as (l & Ht & Hl).
  exists (reverse l). split.
  - unfold rstrip. rewrite <- reverse_app, <- Ht.
    symmetry. apply reverse_involutive.
  - unfold blank in *. apply Forall_reverse. exact Hl.
Qed.

Lemma rstrip_last (t : list N) (c : N) :
  last (rstrip t) = Some c -> isspace c = false.
Proof. unfold rstrip. rewrite last_reverse. apply lstrip_head. Qed.

Lemma rstrip_head (t : list N) (c : N) :
  head (rstrip t) = Some c -> head t = Some c.
Proof.
  destruct (rstrip_decompose t) as (r & Ht & _). intros Hc.
  rewrite Ht. destruct (rstrip t); [discriminate | exact Hc].
Qed.

(** [strip] removes whitespace, and only whitespace, from both ends. *)
Lemma strip_spec (s : list N) :
  exists l r,
    s = l ++ strip s ++ r
    /\ blank l /\ blank r
    /\ (forall c, head (strip s) = Some c -> isspace c = false)
    /\ (forall c, last (strip s) = Some c -> isspace c = false).
Proof.
  destruct (lstrip_decompose s) as (l & Hs & Hl).
  destruct (rstrip_decompose (lstrip s)) as (r & Ht & Hr).
  exists l, r. unfold strip. repeat split; try assumption.
  - rewrite <- Ht. exact Hs.
  - intros c Hc. apply rstrip_head in Hc.
    apply (lstrip_head s). exact Hc.
  - intros c. apply rstrip_last.
Qed.

Lemma strip_nil_iff (s : list N) : strip s = [] <-> blank s.
Proof.
  split.
  - intros Hnil. destruct (strip_spec s) as (l & r & Hs & Hl & Hr & _).
    rewrite Hs, Hnil. unfold blank in *. apply Forall_app.
    split; [exact Hl|]. apply Forall_app. split; [constructor | exact Hr].
  - intros H. apply lstrip_nil_iff in H. unfold strip. rewrite H.
    reflexivity.
Qed.

End StripFacts.

Section ParseFacts.

Variable encode : list N -> list Z.

(** The paragraphs that the lines of one document contribute. *)
Lemma parse_doc_flat (doc : list (list N)) (acc : list (list Z)) :
  foldl
    (fun ls_token_ids parag =>
       match strip parag with
       | [] => ls_token_ids
       | parag => ls_token_ids ++ [encode parag]
       end)
    acc doc
  = acc ++ (encode <$> filter (fun s => s <> []) (strip <$> doc)).
Proof.
  revert acc. induction doc as [|line doc IH]; intros acc.
  - cbn. rewrite app_nil_r. reflexivity.
  - cbn [foldl fmap list_fmap]. rewrite IH. rewrite filter_cons.
    destruct (strip line) as [|c s] eqn:Hstrip.
    + rewrite decide_False by (intros H; apply H; reflexivity).
      reflexivity.
    + rewrite decide_True by discriminate.
      cbn [fmap list_fmap]. rewrite <- app_assoc. reflexivity.
Qed.

(** The loops of lines 46-53 keep, in order, the encodings of the
    stripped lines that are not empty. *)
Lemma parse_and_tokenize_flat_from (docs : list (list (list N)))
    (acc : list (list Z)) :
  foldl
    (fun ls_token_ids doc =>
       foldl
         (fun ls_token_ids parag =>
            match strip parag with
            | [] => ls_token_ids
            | parag => ls_token_ids ++ [encode parag]
            end)
         ls_token_ids doc)
    acc docs
  = acc ++ (encode <$> filter (fun s => s <> []) (strip <$> concat docs)).
Proof.
  revert acc. induction docs as [|doc docs IH]; intros acc.
  - cbn. rewrite app_nil_r. reflexivity.
  - cbn [foldl concat]. rewrite IH, parse_doc_flat.
    rewrite fmap_app, filter_app, fmap_app, app_assoc. reflexivity.
Qed.

Lemma parse_and_tokenize_flat (docs : list (list (list N))) :
  _parse_and_tokenize encode docs
  = encode <$> filter (fun s => s <> []) (strip <$> concat docs).
Proof. unfold _parse_and_tokenize. apply parse_and_tokenize_flat_from. Qed.

(** Parsing a longer listing extends the corpus of a shorter one. *)
Lemma parse_and_tokenize_app (docs1 docs2 : list (list (list N))) :
  _parse_and_tokenize encode (docs1 ++ docs2)
  = _parse_and_tokenize encode docs1 ++ _parse_and_tokenize encode docs2.
Proof.
  rewrite !parse_and_tokenize_flat.
  rewrite concat_app, fmap_app, filter_app, fmap_app. reflexivity.
Qed.

End ParseFacts.

Lemma filter_strip_nonblank (lines : list (list N)) :
  filter (fun s => s <> []) (strip <$> lines)
  = strip <$> filter (fun l => ~ blank l) lines.
Proof.
  induction lines as [|line lines IH]; [reflexivity|].
  cbn [fmap list_fmap]. rewrite !filter_cons, IH.
  destruct (decide (strip line <> [])) as [Hne|He].
  - rewrite decide_True; [reflexivity|].
    intros Hb. apply Hne. apply strip_nil_iff. exact Hb.
  - rewrite decide_False; [reflexivity|].
    intros Hnb. apply Hnb. apply strip_nil_iff.
    destruct (strip line); [reflexivity|]. exfalso. apply He. discriminate.
Qed.

Lemma elem_of_concat_lines (line : list N) (docs : list (list (list N))) :
  line ∈ concat docs -> exists doc, line ∈ doc /\ doc ∈ docs.
Proof.
  induction docs as [|d docs IH]; cbn [concat]; intros Hin.
  - apply elem_of_nil in Hin. destruct Hin.
  - apply elem_of_app in Hin as [Hin|Hin].
    + exists d. split; [exact Hin | apply list_elem_of_here].
    + destruct (IH Hin) as (doc & Hline & Hdoc).
      exists doc. split; [exact Hline | apply list_elem_of_further, Hdoc].
Qed.

(** X8.  [_parse_and_tokenize] stores, in the order of the listing and of
    the lines, the encoding of the stripped text of every line that is not
    whitespace only, and nothing else: lines of whitespace only are
    skipped, and the number of paragraphs is the number of other lines. *)
Theorem X8_parse_keeps_nonblank_lines (encode : list N -> list Z)
    (docs : list (list (list N))) :
  _parse_and_tokenize encode docs
  = (fun line => encode (strip line))
      <$> filter (fun l => ~ blank l) (concat docs)
  /\ length (_parse_and_tokenize encode docs)
     = length (filter (fun l => ~ blank l) (concat docs)).
Proof.
  assert (H : _parse_and_tokenize encode docs
              = (fun line => encode (strip line))
                  <$> filter (fun l => ~ blank l) (concat docs)).
  { rewrite parse_and_tokenize_flat, filter_strip_nonblank.
    rewrite <- list_fmap_compose. reflexivity. }
  split; [exact H|]. rewrite H. apply length_fmap.
Qed.

(** X9.  Every stored paragraph is the encoding of a text that is not
    empty, neither starts nor ends with whitespace, and is what a line of
    some document leaves when whitespace, and only whitespace, is removed
    from its two ends. *)
Theorem X9_parse_paragraphs_trimmed (encode : list N -> list Z)
    (docs : list (list (list N))) (token_ids : list Z) :
  token_ids ∈ _parse_and_tokenize encode docs ->
  exists doc line l s r,
    doc ∈ docs /\ line ∈ doc
    /\ line = l ++ s ++ r /\ blank l /\ blank r
    /\ s <> []
    /\ (forall c, head s = Some c -> isspace c = false)
    /\ (forall c, last s = Some c -> isspace c = false)
    /\ token_ids = encode s.
Proof.
  rewrite parse_and_tokenize_flat. intros Hin.
  apply list_elem_of_fmap in Hin as (s & -> & Hs).
  apply list_elem_of_filter in Hs as [Hne Hs].
  apply list_elem_of_fmap in Hs as (line & -> & Hline).
  apply elem_of_concat_lines in Hline as (doc & Hline & Hdoc).
  destruct (strip_spec line) as (l & r & Hsplit & Hl & Hr & Hhead & Hlast).
  exists doc, line, l, (strip line), r. repeat split; assumption.
Qed.

(** X9 on a document whose lines are [" a b\n"] and ["\n"], with code
    points as token ids: the one stored paragraph is ["a b"]. *)
Lemma X9_parse_paragraphs_trimmed_witness :
  _parse_and_tokenize (map Z.of_N) [[[32; 97; 32; 98; 10]; [10]]]%N
  = [[97; 32; 98]]
  /\ exists doc line l s r,
       doc ∈ [[[32; 97; 32; 98; 10]; [10]]]%N /\ line ∈ doc
       /\ line = l ++ s ++ r /\ blank l /\ blank r
       /\ s <> []
       /\ (forall c, head s = Some c -> isspace c = false)
       /\ (forall c, last s = Some c -> isspace c = false)
       /\ [97; 32; 98] = map Z.of_N s.
Proof.
  split; [reflexivity|].
  apply (X9_parse_paragraphs_trimmed (map Z.of_N)
           [[[32; 97; 32; 98; 10]; [10]]]%N [97; 32; 98]).
  vm_compute. apply list_elem_of_here.
Defined.

(** X10.  Paragraph indices run across documents: when the corpus is
    parsed from a listing [docs1 ++ docs2] and [docs2] contributes a first
    paragraph, the true-successor branch at the index of the last paragraph
    of [docs1] returns that first paragraph of [docs2], with label 1. *)
Theorem X10_successor_crosses_documents (self : BookCorpusForBERT) (g : rng)
    (encode : list N -> list Z) (docs1 docs2 : list (list (list N)))
    (next_token_ids : list Z) (rest : list (list Z)) :
  ls_token_ids self = _parse_and_tokenize encode (docs1 ++ docs2) ->
  _parse_and_tokenize encode docs2 = next_token_ids :: rest ->
  (random_random g < 1 # 2)%Q ->
  _sample_next_sentence self g (len (_parse_and_tokenize encode docs1) - 1)
  = Ok (next_token_ids, 1).
Proof.
  intros Hls Hsecond Hu. rewrite sample_is_next_branch by exact Hu.
  rewrite Hls, parse_and_tokenize_app, Hsecond.
  set (first := _parse_and_tokenize encode docs1).
  destruct (getitem_in_range (first ++ next_token_ids :: rest)
              (len first - 1 + 1)) as (t & Ht & Hget).
  { unfold len. rewrite length_app. cbn [length]. lia. }
  rewrite Hget.
  rewrite lookup_app_r in Ht by (unfold len; lia).
  replace (Z.to_nat (len first - 1 + 1) - length first)%nat with 0%nat in Ht
    by (unfold len; lia).
  injection Ht as <-. reflexivity.
Qed.

(** X10 on two one-line documents, ["a\n"] and ["b\n"], with code points
    as token ids. *)
Lemma X10_successor_crosses_documents_witness :
  _sample_next_sentence
    {| max_len := 8; cls_id := 1; sep_id := 2; pad_id := 0; unk_id := 3;
       ls_token_ids := [[97]; [98]] |} rng_is_next 0
  = Ok ([98], 1).
Proof.
  apply (X10_successor_crosses_documents
           {| max_len := 8; cls_id := 1; sep_id := 2; pad_id := 0;
              unk_id := 3; ls_token_ids := [[97]; [98]] |}
           rng_is_next (map Z.of_N) [[[97; 10]]]%N [[[98; 10]]]%N [98] []);
    reflexivity.
Defined.

(** * Further properties of the training loop *)

Section LoopRuns.

Context {ModelState OptimState ScalerState : Type}.
Variable config : Config.
Variable env : Collaborators ModelState OptimState ScalerState.
Variables batch_size n_steps : Z.

Lemma range_snoc (start stop : Z) :
  start < stop -> range start stop = range start (stop - 1) ++ [stop - 1].
Proof.
  intros H. unfold range.
  replace (Z.to_nat (stop - start))
    with (S (Z.to_nat (stop - 1 - start))) by lia.
  rewrite seq_S, map_app. cbn [map]. do 2 f_equal. lia.
Qed.

(** Induction over a loop on consecutive steps: [Pre s] holds before the
    iteration of step [s]; an iteration either ends normally and
    establishes [Pre (s + 1)], or raises and establishes [R]. *)
Lemma for_each_range_ind
    (Pre : Z -> Locals ModelState OptimState ScalerState ->
           world ModelState OptimState ScalerState -> Prop)
    (R : exn -> world ModelState OptimState ScalerState -> Prop)
    (body : Z -> Locals ModelState OptimState ScalerState ->
            io ModelState OptimState ScalerState
              (Locals ModelState OptimState ScalerState))
    (stop : Z) :
  (forall s L w, s < stop -> Pre s L w ->
     match body s L w with
     | (w', Ok L') => Pre (s + 1) L' w'
     | (w', Raise e) => R e w'
     end) ->
  forall (n : nat) (start : Z) L w,
    Z.to_nat (stop - start) = n ->
    Pre start L w ->
    match for_each (range start stop) body L w with
    | (w', Ok L') => Pre (Z.max start stop) L' w'
    | (w', Raise e) => R e w'
    end.
Proof.
  intros Hbody. induction n as [|n IH]; intros start L w Hn Hpre.
  - rewrite range_empty by lia. cbn.
    replace (Z.max start stop) with start by lia. exact Hpre.
  - rewrite range_cons by lia. cbn [for_each]. unfold io_bind.
    specialize (Hbody start L w ltac:(lia) Hpre).
    destruct (body start L w) as [w1 [L1|e]]; [|exact Hbody].
    specialize (IH (start + 1) L1 w1 ltac:(lia) Hbody).
    replace (Z.max (start + 1) stop) with (Z.max start stop) in IH by lia.
    exact IH.
Qed.

(** An iteration whose report is not due touches nothing outside the
    locals. *)
Lemma loop_body_not_due (step : Z)
    (L : Locals ModelState OptimState ScalerState)
    (w : world ModelState OptimState ScalerState) :
  is_report_step config batch_size n_steps step = Ok false ->
  exists L', loop_body config env batch_size n_steps step L w = (w, Ok L')
             /\ prev_ckpt_path L' = prev_ckpt_path L
             /\ step_cnt L' = step_cnt L + 1.
Proof.
  intros Hdue. unfold loop_body.
  destruct (train_step env step (model L, optim L, scaler L))
    as [[[model' optim'] scaler'] [nsp_loss mlm_loss]].
  unfold io_bind, lift. rewrite Hdue. unfold io_ret.
  eexists. split; [reflexivity|]. split; reflexivity.
Qed.

(** When the condition of line 160 itself raises, so does the
    iteration, with the world as it was. *)
Lemma loop_body_condition_raises (step : Z) (e : exn)
    (L : Locals ModelState OptimState ScalerState)
    (w : world ModelState OptimState ScalerState) :
  is_report_step config batch_size n_steps step = Raise e ->
  loop_body config env batch_size n_steps step L w = (w, Raise e).
Proof.
  intros Hdue. unfold loop_body.
  destruct (train_step env step (model L, optim L, scaler L))
    as [[[model' optim'] scaler'] [nsp_loss mlm_loss]].
  unfold io_bind, lift. rewrite Hdue. reflexivity.
Qed.

(** The progress line is printed whenever the count is not zero. *)
Lemma report_runs (step : Z)
    (L : Locals ModelState OptimState ScalerState)
    (w : world ModelState OptimState ScalerState) :
  step_cnt L <> 0 ->
  exists w' L',
    report n_steps step L w = (w', Ok L')
    /\ disk w' = disk w
    /\ prev_ckpt_path L' = prev_ckpt_path L
    /\ model L' = model L /\ optim L' = optim L /\ scaler L' = scaler L
    /\ step_cnt L' = 0.
Proof.
  intros Hcnt. unfold report, io_bind, lift, truediv, print, io_ret.
  destruct (Z.eqb_spec (step_cnt L) 0); [contradiction|].
  eexists. eexists. split; [reflexivity|]. repeat split; reflexivity.
Qed.

(** A due iteration, in all its outcomes, from a state inside the rotation
    invariant and with a count that is not negative. *)
Lemma loop_body_due (s0 step : Z)
    (L : Locals ModelState OptimState ScalerState)
    (w : world ModelState OptimState ScalerState)
    (model' : ModelState) (optim' : OptimState) (scaler' : ScalerState)
    (losses : Q * Q) :
  s0 < step ->
  rotation_inv config s0 L w ->
  0 <= step_cnt L ->
  is_report_step config batch_size n_steps step = Ok true ->
  train_step env step (model L, optim L, scaler L)
  = (model', optim', scaler', losses) ->
  let ckpt :=
    {| ckpt_step := step; ckpt_optimizer := optim';
       ckpt_scaler := scaler'; ckpt_model := model' |} in
  let cur := path_str (ckpt_path_of config step) in
  (save_outcome env step = WriteOk ->
   exists w' L',
     loop_body config env batch_size n_steps step L w = (w', Ok L')
     /\ disk w' = {[cur := Valid ckpt]}
     /\ prev_ckpt_path L' = ckpt_path_of config step
     /\ model L' = model' /\ optim L' = optim' /\ scaler L' = scaler'
     /\ step_cnt L' = 0)
  /\ (save_outcome env step <> WriteOk ->
      exists w',
        loop_body config env batch_size n_steps step L w
        = (w', Raise OSError)
        /\ forall f, f <> cur -> disk w' !! f = disk w !! f).
Proof.
  intros Hstep (Hdom & Hpath & Hfresh) Hcnt Hdue Htrain ckpt cur.
  unfold loop_body. rewrite Htrain. destruct losses as [nsp_loss mlm_loss].
  set (L1 := Build_Locals _ _ _ _ _ _ _ _).
  unfold io_bind, lift. rewrite Hdue.
  destruct (report_runs step L1 w)
    as (w1 & L2 & Hrep & Hdisk & Hprev & Hm & Ho & Hs & Hzero).
  { unfold L1. cbn [step_cnt]. lia. }
  rewrite Hrep.
  change (prev_ckpt_path L1) with (prev_ckpt_path L) in Hprev.
  change (model L1) with model' in Hm.
  change (optim L1) with optim' in Ho.
  change (scaler L1) with scaler' in Hs.
  rewrite <- Hdisk, <- Hprev in Hdom, Hpath. rewrite <- Hprev in Hfresh.
  split.
  - intros Hok.
    destruct (rotation_write_ok config env step L2 w1 Hok
                (Hfresh step Hstep) Hdom Hpath)
      as (w2 & L3 & Hrun & Hcur & Hfile).
    exists w2, L3. split; [exact Hrun|].
    assert (Hckpt : ckpt_of step L2 = ckpt).
    { unfold ckpt_of, ckpt. rewrite Hm, Ho, Hs. reflexivity. }
    rewrite Hckpt in Hfile. split; [exact Hfile|]. split; [exact Hcur|].
    revert Hrun.
    unfold checkpoint_rotation, save_checkpoint, io_bind, torch_save, print,
      exists_, io_ret. rewrite Hok.
    destruct (bool_decide _).
    + destruct (unlink (prev_ckpt_path L2) _) as [w3 [[]|e]];
        [|discriminate].
      intros [= _ <-]. cbn. repeat split; assumption.
    + intros [= _ <-]. cbn. repeat split; assumption.
  - intros Hfail.
    destruct (rotation_write_fails config env step L2 w1 Hfail)
      as (w2 & Hrun & Hframe).
    exists w2. split; [exact Hrun|]. intros f Hf.
    rewrite (Hframe f Hf), Hdisk. reflexivity.
Qed.

End LoopRuns.

Section LoopOutcomes.

Context {ModelState OptimState ScalerState : Type}.
Variable config : Config.
Variable env : Collaborators ModelState OptimState ScalerState.
Variables batch_size n_steps : Z.

(** What one iteration does to the rotation invariant, to the sign of the
    count and to the presence of a complete checkpoint, however it ends. *)
Lemma loop_body_step (step : Z)
    (L : Locals ModelState OptimState ScalerState)
    (w : world ModelState OptimState ScalerState) :
  rotation_inv config (step - 1) L w ->
  0 <= step_cnt L ->
  match loop_body config env batch_size n_steps step L w with
  | (w', Ok L') =>
      rotation_inv config step L' w' /\ 0 <= step_cnt L'
      /\ (has_valid_checkpoint w -> has_valid_checkpoint w')
  | (w', Raise e) =>
      (has_valid_checkpoint w -> has_valid_checkpoint w')
      /\ ((exists due,
              is_report_step config batch_size n_steps step = Ok due) ->
          e = OSError /\ save_outcome env step <> WriteOk)
  end.
Proof.
  intros Hinv Hcnt.
  destruct (is_report_step config batch_size n_steps step) as [[|]|e]
    eqn:Hdue.
  - destruct (train_step env step (model L, optim L, scaler L))
      as [[[model' optim'] scaler'] losses] eqn:Htrain.
    destruct (loop_body_due config env batch_size n_steps (step - 1) step
                L w model' optim' scaler' losses ltac:(lia) Hinv Hcnt Hdue
                Htrain) as [Hok Hfail].
    assert (save_outcome env step = WriteOk
            \/ save_outcome env step <> WriteOk) as [Hw|Hw]
      by (destruct (save_outcome env step);
          [left; reflexivity | right; discriminate..]).
    + destruct (Hok Hw) as (w' & L' & -> & Hfile & Hcur & _ & _ & _ & Hzero).
      split; [|split; [lia|]].
      * repeat split.
        -- rewrite Hfile, dom_singleton_L, Hcur. reflexivity.
        -- left. rewrite Hcur. exact I.
        -- intros t Ht Heq. rewrite Hcur in Heq.
           apply ckpt_path_of_inj in Heq. lia.
      * intros _. eexists. eexists. rewrite Hfile.
        apply lookup_singleton_eq.
    + destruct (Hfail Hw) as (w' & -> & Hframe).
      split; [|intros _; split; [reflexivity | exact Hw]].
      intros (f & c & Hf). exists f, c. rewrite Hframe; [exact Hf|].
      destruct Hinv as (Hdom & _ & Hfresh).
      assert (Hin : f ∈ dom (disk w)) by (apply elem_of_dom; eauto).
      apply Hdom, elem_of_singleton in Hin. subst f.
      apply Hfresh. lia.
  - destruct (loop_body_not_due config env batch_size n_steps step L w Hdue)
      as (L' & -> & Hprev & Hcnt').
    split; [|split; [lia | tauto]].
    destruct Hinv as (Hdom & Hpath & Hfresh).
    unfold rotation_inv. rewrite Hprev. repeat split; try assumption.
    intros t Ht. apply Hfresh. lia.
  - rewrite (loop_body_condition_raises config env batch_size n_steps step e
               L w Hdue).
    split; [tauto|]. intros [due Hd]. discriminate Hd.
Qed.



End LoopOutcomes.



(** X13.  A due iteration that ends normally, from a state inside the
    rotation invariant, leaves on disk exactly the file named after its
    step, holding that step number and the three states as the update of
    this very step left them; the loop goes on with the same states and
    remembers the new path. *)
Theorem X13_checkpoint_holds_updated_states
    {ModelState OptimState ScalerState : Type}
    (config : Config) (env : Collaborators ModelState OptimState ScalerState)
    (batch_size n_steps step : Z)
    (L L' : Locals ModelState OptimState ScalerState)
    (w w' : world ModelState OptimState ScalerState)
    (model' : ModelState) (optim' : OptimState) (scaler' : ScalerState)
    (losses : Q * Q) :
  rotation_inv config (step - 1) L w ->
  0 <= step_cnt L ->
  is_report_step config batch_size n_steps step = Ok true ->
  train_step env step (model L, optim L, scaler L)
  = (model', optim', scaler', losses) ->
  loop_body config env batch_size n_steps step L w = (w', Ok L') ->
  disk w'
  = {[path_str (ckpt_path_of config step)
      := Valid {| ckpt_step := step; ckpt_optimizer := optim';
                  ckpt_scaler := scaler'; ckpt_model := model' |}]}
  /\ model L' = model' /\ optim L' = optim' /\ scaler L' = scaler'
  /\ prev_ckpt_path L' = ckpt_path_of config step.
Proof.
  intros Hinv Hcnt Hdue Htrain Hrun.
  destruct (loop_body_due config env batch_size n_steps (step - 1) step
              L w model' optim' scaler' losses ltac:(lia) Hinv Hcnt Hdue
              Htrain) as [Hok Hfail].
  assert (save_outcome env step = WriteOk
          \/ save_outcome env step <> WriteOk) as [Hw|Hw]
    by (destruct (save_outcome env step);
        [left; reflexivity | right; discriminate..]).
  - destruct (Hok Hw) as (w2 & L2 & Hrun2 & Hfile & Hcur & Hm & Ho & Hs & _).
    rewrite Hrun2 in Hrun. injection Hrun as <- <-.
    repeat split; assumption.
  - destruct (Hfail Hw) as (w2 & Hrun2 & _).
    rewrite Hrun2 in Hrun. discriminate Hrun.
Qed.

(** X13 at step 2 of the recipe run, after the checkpoint of step 1. *)
Lemma X13_checkpoint_holds_updated_states_witness :
  exists w' L',
    loop_body recipe_config unit_loss_env 256 1000000 2 locals_after_step_1
      world_after_step_1 = (w', Ok L')
    /\ disk w'
       = {["ckpt/bookcorpus_step_2.pth"
           := Valid {| ckpt_step := 2; ckpt_optimizer := tt;
                       ckpt_scaler := tt; ckpt_model := tt |}]}.
Proof.
  destruct (loop_body recipe_config unit_loss_env 256 1000000 2
              locals_after_step_1 world_after_step_1)
    as [w' [L'|e]] eqn:Hrun; [|vm_compute in Hrun; discriminate Hrun].
  exists w', L'. split; [reflexivity|].
  apply (X13_checkpoint_holds_updated_states recipe_config unit_loss_env
           256 1000000 2 locals_after_step_1 L' world_after_step_1 w'
           tt tt tt (1, 1)%Q).
  - repeat split.
    + cbn [disk world_after_step_1 prev_ckpt_path locals_after_step_1
             path_str].
      rewrite dom_singleton_L. reflexivity.
    + left. exact I.
    + intros s Hs Heq.
      change (path_str (prev_ckpt_path locals_after_step_1))
        with (path_str (ckpt_path_of recipe_config 1)) in Heq.
      apply ckpt_path_of_inj in Heq. lia.
  - cbn. lia.
  - reflexivity.
  - reflexivity.
  - exact Hrun.
Defined.

Section FreshRuns.

Context {ModelState OptimState ScalerState : Type}.
Variable config : Config.
Variable env : Collaborators ModelState OptimState ScalerState.
Variables batch_size n_steps : Z.

Lemma is_report_step_last (due : bool) :
  is_report_step config batch_size n_steps n_steps = Ok due -> due = true.
Proof.
  unfold is_report_step.
  destruct (floordiv (N_CKPT_SAMPLES config) batch_size) as [i|e]; cbn;
    [|discriminate].
  destruct (mod_ n_steps i) as [r|e]; cbn; [|discriminate].
  intros [= <-]. rewrite Z.eqb_refl. apply orb_true_r.
Qed.

(** The loop of a run, from a state inside the rotation invariant with a
    count that is not negative: a normal end keeps both, and an exception
    leaves a complete checkpoint on disk if there was one. *)
Lemma for_each_loop_body (start stop : Z)
    (L : Locals ModelState OptimState ScalerState)
    (w : world ModelState OptimState ScalerState) :
  rotation_inv config (start - 1) L w ->
  0 <= step_cnt L ->
  match for_each (range start stop)
          (loop_body config env batch_size n_steps) L w with
  | (w', Ok L') =>
      rotation_inv config (Z.max start stop - 1) L' w'
      /\ 0 <= step_cnt L'
      /\ (has_valid_checkpoint w -> has_valid_checkpoint w')
  | (w', Raise e) => has_valid_checkpoint w -> has_valid_checkpoint w'
  end.
Proof.
  intros Hinv Hcnt.
  pose proof (for_each_range_ind
    (fun s L' w' =>
       rotation_inv config (s - 1) L' w' /\ 0 <= step_cnt L'
       /\ (has_valid_checkpoint w -> has_valid_checkpoint w'))
    (fun _ w' => has_valid_checkpoint w -> has_valid_checkpoint w')
    (loop_body config env batch_size n_steps) stop) as Hind.
  apply (Hind) with (n := Z.to_nat (stop - start)); [|reflexivity|].
  - intros s L1 w1 _ (Hinv1 & Hcnt1 & Hvalid1).
    pose proof (loop_body_step config env batch_size n_steps s L1 w1 Hinv1
                  Hcnt1) as Hstep.
    destruct (loop_body config env batch_size n_steps s L1 w1)
      as [w2 [L2|e]].
    + destruct Hstep as (Hinv2 & Hcnt2 & Hvalid2).
      replace (s + 1 - 1) with s by lia. tauto.
    + tauto.
  - tauto.
Qed.

End FreshRuns.

(** X12.  A fresh run of at least one step that starts on a disk without
    checkpoint files and ends normally leaves exactly one file: the
    checkpoint named after the last step [N_STEPS], holding that step
    number and the final states; the count is back at 0. *)
Theorem X12_fresh_run_final_checkpoint
    {ModelState OptimState ScalerState : Type}
    (config : Config) (env : Collaborators ModelState OptimState ScalerState)
    (batch_size n_steps : Z)
    (model0 : ModelState) (optim0 : OptimState) (scaler0 : ScalerState)
    (L' : Locals ModelState OptimState ScalerState)
    (w w' : world ModelState OptimState ScalerState) :
  CKPT_PATH config = None ->
  N_STEPS config batch_size = Ok n_steps ->
  1 <= n_steps ->
  disk w = ∅ ->
  main config env batch_size model0 optim0 scaler0 w = (w', Ok L') ->
  disk w'
  = {[path_str (ckpt_path_of config n_steps) := Valid (ckpt_of n_steps L')]}
  /\ prev_ckpt_path L' = ckpt_path_of config n_steps
  /\ step_cnt L' = 0.
Proof.
  intros Hp Hn Hpos Hempty. unfold main, io_bind at 1 2, lift, resume.
  rewrite Hn, Hp. unfold io_ret, loop_steps.
  rewrite (range_snoc (0 + 1) (n_steps + 1)) by lia.
  replace (n_steps + 1 - 1) with n_steps by lia.
  rewrite for_each_app. unfold io_bind at 1.
  pose proof (for_each_loop_body config env batch_size n_steps (0 + 1)
                n_steps (init_locals model0 optim0 scaler0 (Str ".pth")) w
                (fresh_run_inv config model0 optim0 scaler0 w Hempty)
                ltac:(cbn; lia)) as Hprefix.
  destruct (for_each (range (0 + 1) n_steps) _ _ w) as [w1 [L1|e]];
    [|discriminate].
  destruct Hprefix as (Hinv & Hcnt & _).
  replace (Z.max (0 + 1) n_steps - 1) with (n_steps - 1) in Hinv by lia.
  cbn [for_each]. unfold io_bind, io_ret.
  destruct (loop_body config env batch_size n_steps n_steps L1 w1)
    as [w2 [L2|e]] eqn:Hlast; [|discriminate].
  intros [= <- <-].
  destruct (is_report_step config batch_size n_steps n_steps) as [due|e]
    eqn:Hdue.
  2:{ rewrite (loop_body_condition_raises config env batch_size n_steps
                 n_steps e L1 w1 Hdue) in Hlast. discriminate Hlast. }
  pose proof (is_report_step_last config batch_size n_steps due Hdue).
  subst due.
  destruct (train_step env n_steps (model L1, optim L1, scaler L1))
    as [[[model' optim'] scaler'] losses] eqn:Htrain.
  destruct (loop_body_due config env batch_size n_steps (n_steps - 1)
              n_steps L1 w1 model' optim' scaler' losses ltac:(lia) Hinv
              Hcnt Hdue Htrain) as [Hok Hfail].
  assert (save_outcome env n_steps = WriteOk
          \/ save_outcome env n_steps <> WriteOk) as [Hw|Hw]
    by (destruct (save_outcome env n_steps);
        [left; reflexivity | right; discriminate..]).
  - destruct (Hok Hw)
      as (w3 & L3 & Hrun & Hfile & Hcur & Hm & Ho & Hs & Hzero).
    rewrite Hrun in Hlast. injection Hlast as <- <-.
    split; [|split; assumption].
    rewrite Hfile. unfold ckpt_of. rewrite Hm, Ho, Hs. reflexivity.
  - destruct (Hfail Hw) as (w3 & Hrun & _).
    rewrite Hrun in Hlast. discriminate Hlast.
Qed.

(** X12 on the two-step run. *)
Lemma X12_fresh_run_final_checkpoint_witness :
  exists w' L',
    main short_run_config unit_loss_env 128000000 tt tt tt empty_world
    = (w', Ok L')
    /\ disk w' = {["ckpt/bookcorpus_step_2.pth" := Valid (ckpt_of 2 L')]}.
Proof.
  destruct (main short_run_config unit_loss_env 128000000 tt tt tt
              empty_world) as [w' [L'|e]] eqn:Hrun;
    [|vm_compute in Hrun; discriminate Hrun].
  exists w', L'. split; [reflexivity|].
  destruct (X12_fresh_run_final_checkpoint short_run_config unit_loss_env
              128000000 2 tt tt tt L' empty_world w') as (Hfile & _ & _);
    [reflexivity | reflexivity | lia | reflexivity | exact Hrun |].
  exact Hfile.
Defined.

(** X14.  Once a complete checkpoint file is on disk, the loop never
    leaves the disk without one: from a state inside the rotation
    invariant with a count that is not negative, any run of consecutive
    steps, whether it ends normally or with an exception, ends with a
    complete checkpoint on disk. *)
Theorem X14_loop_keeps_a_valid_checkpoint
    {ModelState OptimState ScalerState : Type}
    (config : Config) (env : Collaborators ModelState OptimState ScalerState)
    (batch_size n_steps start stop : Z)
    (L : Locals ModelState OptimState ScalerState)
    (w w' : world ModelState OptimState ScalerState)
    (r : result (Locals ModelState OptimState ScalerState)) :
  rotation_inv config (start - 1) L w ->
  0 <= step_cnt L ->
  has_valid_checkpoint w ->
  for_each (range start stop) (loop_body config env batch_size n_steps) L w
  = (w', r) ->
  has_valid_checkpoint w'.
Proof.
  intros Hinv Hcnt Hvalid Hrun.
  pose proof (for_each_loop_body config env batch_size n_steps start stop
                L w Hinv Hcnt) as H.
  rewrite Hrun in H. destruct r as [L'|e]; tauto.
Qed.

(** X14 on steps 2 and 3 of the recipe run with writes that fail midway:
    the run stops with the file of step 1 still complete. *)
Lemma X14_loop_keeps_a_valid_checkpoint_witness :
  exists w',
    for_each (range 2 4)
      (loop_body recipe_config midway_failure_env 256 1000000)
      locals_after_step_1 world_after_step_1
    = (w', Raise OSError)
    /\ has_valid_checkpoint w'.
Proof.
  destruct (for_each (range 2 4)
              (loop_body recipe_config midway_failure_env 256 1000000)
              locals_after_step_1 world_after_step_1)
    as [w' r] eqn:Hrun.
  assert (Hr : r = Raise OSError).
  { vm_compute in Hrun. injection Hrun as _ <-. reflexivity. }
  exists w'. split; [rewrite Hr; reflexivity|].
  apply (X14_loop_keeps_a_valid_checkpoint recipe_config midway_failure_env
           256 1000000 2 4 locals_after_step_1 world_after_step_1 w' r).
  - repeat split.
    + cbn [disk world_after_step_1 prev_ckpt_path locals_after_step_1
             path_str].
      rewrite dom_singleton_L. reflexivity.
    + left. exact I.
    + intros s Hs Heq.
      change (path_str (prev_ckpt_path locals_after_step_1))
        with (path_str (ckpt_path_of recipe_config 1)) in Heq.
      apply ckpt_path_of_inj in Heq. lia.
  - cbn. lia.
  - eexists. eexists.
    cbn [disk world_after_step_1]. apply lookup_singleton_eq.
  - exact Hrun.
Defined.





(** X17.  Checkpoint files of different steps have different names, and
    none of them is the placeholder [".pth"] that a fresh run starts with:
    a rotation never writes over the file it is about to delete. *)
Theorem X17_checkpoint_names_distinct (config : Config) (step1 step2 : Z) :
  (step1 <> step2 ->
   path_str (ckpt_path_of config step1)
   <> path_str (ckpt_path_of config step2))
  /\ path_str (ckpt_path_of config step1) <> ".pth".
Proof.
  split.
  - intros Hne Heq. apply Hne. apply (ckpt_path_of_inj config). exact Heq.
  - intros Heq. apply (f_equal String.length) in Heq.
    unfold ckpt_path_of, path_str in Heq.
    rewrite !string_length_app in Heq. cbn [String.length] in Heq. lia.
Qed.

(** X17 on steps 1 and 2 of the recipe configuration. *)
Lemma X17_checkpoint_names_distinct_witness :
  path_str (ckpt_path_of recipe_config 1)
  <> path_str (ckpt_path_of recipe_config 2).
Proof.
  destruct (X17_checkpoint_names_distinct recipe_config 1 2) as [H _].
  apply H. lia.
Defined.

(** X18.  When the previous checkpoint path is a plain string whose file
    exists, as after resuming from a string-valued [CKPT_PATH], a rotation
    whose write succeeds raises [AttributeError] at line 173: the new
    checkpoint has been written and the previous file is still there. *)
Theorem X18_string_path_is_not_unlinked
    {ModelState OptimState ScalerState : Type}
    (config : Config) (env : Collaborators ModelState OptimState ScalerState)
    (step : Z) (L : Locals ModelState OptimState ScalerState)
    (w : world ModelState OptimState ScalerState)
    (s : string) (old : file ModelState OptimState ScalerState) :
  prev_ckpt_path L = Str s ->
  disk w !! s = Some old ->
  s <> path_str (ckpt_path_of config step) ->
  save_outcome env step = WriteOk ->
  exists w',
    checkpoint_rotation config env step L w = (w', Raise AttributeError)
    /\ disk w'
       = <[path_str (ckpt_path_of config step) := Valid (ckpt_of step L)]>
           (disk w)
    /\ disk w' !! s = Some old.
Proof.
  intros Hprev Hold Hne Hok.
  unfold checkpoint_rotation, save_checkpoint, io_bind, torch_save, print,
    exists_, io_ret.
  rewrite Hok, Hprev. cbn [disk stdout path_str].
  rewrite lookup_insert_ne by congruence. rewrite Hold.
  rewrite bool_decide_eq_true_2 by eauto. cbn [unlink].
  eexists. split; [reflexivity|]. cbn [disk]. split; [reflexivity|].
  rewrite lookup_insert_ne by congruence. exact Hold.
Qed.

(** X18 at step 2, with the file of step 1 remembered as a string. *)
Lemma X18_string_path_is_not_unlinked_witness :
  exists w',
    checkpoint_rotation recipe_config unit_loss_env 2
      (init_locals tt tt tt (Str "ckpt/bookcorpus_step_1.pth"))
      world_after_step_1
    = (w', Raise AttributeError)
    /\ dom (disk w')
       = {["ckpt/bookcorpus_step_2.pth"; "ckpt/bookcorpus_step_1.pth"]}.
Proof.
  destruct (X18_string_path_is_not_unlinked recipe_config unit_loss_env 2
              (init_locals tt tt tt (Str "ckpt/bookcorpus_step_1.pth"))
              world_after_step_1 "ckpt/bookcorpus_step_1.pth"
              (Valid (ckpt_of 1 locals_after_step_1)))
    as (w' & Hrun & Hdisk & _).
  - reflexivity.
  - apply lookup_singleton_eq.
  - vm_compute. intros H. discriminate H.
  - reflexivity.
  - exists w'. split; [exact Hrun|]. rewrite Hdisk.
    rewrite dom_insert_L.
    cbn [disk world_after_step_1]. rewrite dom_singleton_L. reflexivity.
Defined.
